(** * Guardrail service: response interpretation, check, chat and batch routes

    A shallow embedding of [src/employee-assistant/src/guardrail_service.py]
    (class [GuardrailService]) and of the batch route of
    [src/employee-assistant/src/api.py].

    - Python dictionaries are finite maps with string keys ([gmap string _]);
      [d.get(k, dflt)] is [default dflt (d !! k)] and [k in d] is a lookup.
    - The values stored under the keys the code reads from an assessment
      entry are strings in the provider's schema; the embedding also admits
      [None] there, so that the truthiness tests and [str.join] behave as in
      Python on such a value.
    - An exception is a value of type [exn]; code inside a [try] lives in the
      error monad [exn + _] and the [except Exception] clause is a [match].
    - The two remote calls ([bedrock.apply_guardrail], [bedrock.converse])
      are the nodes of a small free monad [io]; [run] interprets a program
      against a client and records the calls that were made, in order.
    - Calls to [logger] have no influence on any returned value and are
      left out. *)

From Stdlib Require Import QArith Qcanon.
From stdpp Require Import gmap strings list fin_maps pretty.

Set Warnings "-register-all".

(** ** Values *)

(** A value read from a leaf key: a string, or [None]. *)
Inductive pyleaf : Type :=
| PNone
| PStr (s : string).

Global Instance pyleaf_eq_dec : EqDecision pyleaf.
Proof. solve_decision. Defined.

(** Python truthiness: [None] and the empty string are falsy. *)
Definition truthy (v : pyleaf) : bool :=
  match v with
  | PNone => false
  | PStr s => bool_decide (s ≠ "")
  end.

(** What an f-string writes for [{v}]. *)
Definition fmt (v : pyleaf) : string :=
  match v with
  | PNone => "None"
  | PStr s => s
  end.

(** Values of the dictionaries the service returns (and [jsonify] sends). *)
Inductive pyval : Type :=
| VNone
| VBool (b : bool)
| VInt (n : Z)
| VStr (s : string)
| VList (l : list pyval)
| VDict (d : gmap string pyval).

Definition leaf_val (v : pyleaf) : pyval :=
  match v with
  | PNone => VNone
  | PStr s => VStr s
  end.

Definition py_truthy (v : pyval) : bool :=
  match v with
  | VNone => false
  | VBool b => b
  | VInt n => bool_decide (n ≠ 0%Z)
  | VStr s => bool_decide (s ≠ "")
  | VList l => bool_decide (l ≠ [])
  | VDict d => bool_decide (d ≠ ∅)
  end.

(** ** Exceptions *)

(** An instance of [Exception] (what [except Exception] catches), as far as
    the code looks at it: [type(e).__name__] and [str(e)]. *)
Record exn : Type := Exn { exn_type : string; exn_msg : string }.

Global Instance exn_ret : MRet (sum exn) := λ A a, inr a.
Global Instance exn_bind : MBind (sum exn) := λ A B f m,
  match m with
  | inl e => inl e
  | inr a => f a
  end.

Definition TypeError (msg : string) : exn := Exn "TypeError" msg.
Definition KeyError (key : string) : exn := Exn "KeyError" ("'" +:+ key +:+ "'").
Definition IndexError (msg : string) : exn := Exn "IndexError" msg.

(** [sep.join(items)]: every item must be a [str]; the first one that is not
    raises [TypeError] with its position. *)
Fixpoint str_items (i : nat) (items : list pyleaf) : exn + list string :=
  match items with
  | [] => inr []
  | PStr s :: rest => ss ← str_items (S i) rest; inr (s :: ss)
  | PNone :: _ =>
      inl (TypeError ("sequence item " +:+ pretty i
                      +:+ ": expected str instance, NoneType found"))
  end.

Definition str_join (sep : string) (items : list pyleaf) : exn + string :=
  ss ← str_items 0 items; inr (String.concat sep ss).

(** ** The provider's assessment structure *)

(** An entry of a policy list (a filter, a PII entity, a regex, a custom
    word, a managed word list, a topic): a dictionary of leaf values. *)
Abbreviation entry := (gmap string pyleaf).

(** A policy sub-section maps list names ([filters], [piiEntities], ...) to
    lists of entries. *)
Abbreviation policy := (gmap string (list entry)).

(** An assessment maps category names to policy sub-sections. *)
Abbreviation assessment := (gmap string policy).

(** ** [GuardrailService._parse_assessments] *)

Module Interpreter.

(** Body of [for f in filters]. *)
Definition content_filter (reasons : list string) (f : entry) : list string :=
  let action := default PNone (f !! "action") in
  if truthy action && bool_decide (action ≠ PStr "NONE") then
    let filter_type := default (PStr "Unknown") (f !! "type") in
    let confidence := default (PStr "N/A") (f !! "confidence") in
    reasons ++ ["Nội dung " +:+ fmt filter_type +:+ ": " +:+ fmt action
                +:+ " (Độ tin cậy: " +:+ fmt confidence +:+ ")"]
  else reasons.

(** Body of [for entity in pii_entities]. *)
Definition pii_entity (reasons : list string) (entity : entry) : list string :=
  let action := default PNone (entity !! "action") in
  if truthy action && bool_decide (action ≠ PStr "NONE") then
    let entity_type := default (PStr "Unknown") (entity !! "type") in
    reasons ++ ["Thông tin nhạy cảm (" +:+ fmt entity_type +:+ "): "
                +:+ fmt action]
  else reasons.

(** Body of [for regex in regexes]. *)
Definition regex_match (reasons : list string) (regex : entry) : list string :=
  let action := default PNone (regex !! "action") in
  if truthy action && bool_decide (action ≠ PStr "NONE") then
    let name := default (PStr "Unknown") (regex !! "name") in
    reasons ++ ["Pattern nhạy cảm (" +:+ fmt name +:+ "): " +:+ fmt action]
  else reasons.

(** Body of [for topic in topics]. *)
Definition topic (reasons : list string) (t : entry) : list string :=
  let action := default PNone (t !! "action") in
  if truthy action && bool_decide (action ≠ PStr "NONE") then
    let name := default (PStr "Unknown") (t !! "name") in
    reasons ++ ["Chủ đề vi phạm: " +:+ fmt name]
  else reasons.

(** The [customWords] part of the word-policy branch. *)
Definition custom_words_reason (reasons : list string)
    (custom_words : list entry) : exn + list string :=
  if bool_decide (custom_words ≠ []) then
    let matched := (λ w : entry, default (PStr "") (w !! "match"))
                     <$> take 3 custom_words in
    word_list ← str_join ", " matched;
    let word_list :=
      if bool_decide (3 < length custom_words) then word_list +:+ "..."
      else word_list in
    inr (reasons ++ ["Từ bị cấm: " +:+ word_list])
  else inr reasons.

(** The [managedWordLists] part of the word-policy branch. *)
Definition managed_lists_reason (reasons : list string)
    (managed_lists : list entry) : list string :=
  if bool_decide (managed_lists ≠ []) then
    reasons ++ ["Managed word list: " +:+ pretty (length managed_lists)
                +:+ " vi phạm"]
  else reasons.

(** The four branches, each guarded by [if '<category>' in assessment]. *)
Definition content_policy (reasons : list string) (a : assessment)
    : list string :=
  match a !! "contentPolicy" with
  | Some cp => foldl content_filter reasons (default [] (cp !! "filters"))
  | None => reasons
  end.

Definition sensitive_information_policy (reasons : list string)
    (a : assessment) : list string :=
  match a !! "sensitiveInformationPolicy" with
  | Some sip =>
      let reasons :=
        foldl pii_entity reasons (default [] (sip !! "piiEntities")) in
      foldl regex_match reasons (default [] (sip !! "regexes"))
  | None => reasons
  end.

Definition word_policy (reasons : list string) (a : assessment)
    : exn + list string :=
  match a !! "wordPolicy" with
  | Some wp =>
      reasons ← custom_words_reason reasons (default [] (wp !! "customWords"));
      inr (managed_lists_reason reasons
             (default [] (wp !! "managedWordLists")))
  | None => inr reasons
  end.

Definition topic_policy (reasons : list string) (a : assessment)
    : list string :=
  match a !! "topicPolicy" with
  | Some tp => foldl topic reasons (default [] (tp !! "topics"))
  | None => reasons
  end.

(** Body of [for assessment in assessments]. *)
Definition parse_assessment (reasons : list string) (a : assessment)
    : exn + list string :=
  let reasons := content_policy reasons a in
  let reasons := sensitive_information_policy reasons a in
  reasons ← word_policy reasons a;
  inr (topic_policy reasons a).

Fixpoint parse_loop (reasons : list string) (assessments : list assessment)
    : exn + list string :=
  match assessments with
  | [] => inr reasons
  | a :: rest => reasons ← parse_assessment reasons a; parse_loop reasons rest
  end.

Definition _parse_assessments (assessments : list assessment)
    : exn + list string :=
  parse_loop [] assessments.

End Interpreter.

(** ** The remote client *)

(** Arguments of [bedrock.apply_guardrail]. *)
Record ApplyGuardrailRequest : Type := {
  guardrailIdentifier : string;
  guardrailVersion : string;
  content : string;
  source : string
}.

(** What the code reads of the answer of [apply_guardrail]: three optional
    keys. *)
Record GuardrailResponse : Type := {
  resp_action : option pyleaf;
  resp_assessments : option (list assessment);
  resp_outputs : option (list entry)
}.

(** Arguments of [bedrock.converse]. *)
Record ConverseRequest : Type := {
  modelId : string;
  user_text : string;
  maxTokens : Z;
  temperature : Qc;
  guardrailConfig : gmap string string;
  system : option string
}.

(** What the code reads of the answer of [converse]:
    [response.get('stopReason')] and
    [response['output']['message']['content'][0]['text']]. *)
Record ConverseResponse : Type := {
  stopReason : option pyleaf;
  output : option (gmap string (gmap string (list entry)))
}.

(** Programs that call the client. *)
Inductive io (A : Type) : Type :=
| Ret (a : A)
| ApplyGuardrail (req : ApplyGuardrailRequest)
    (k : exn + GuardrailResponse → io A)
| Converse (req : ConverseRequest) (k : exn + ConverseResponse → io A).
Arguments Ret {A} a.
Arguments ApplyGuardrail {A} req k.
Arguments Converse {A} req k.

Fixpoint io_bind {A B : Type} (f : A → io B) (m : io A) : io B :=
  match m with
  | Ret a => f a
  | ApplyGuardrail req k => ApplyGuardrail req (λ r, io_bind f (k r))
  | Converse req k => Converse req (λ r, io_bind f (k r))
  end.

Global Instance io_ret : MRet io := @Ret.
Global Instance io_mbind : MBind io := @io_bind.

(** A client: each call answers or raises, and may change the world. *)
Record Bedrock (W : Type) : Type := {
  apply_guardrail : ApplyGuardrailRequest → W → (exn + GuardrailResponse) * W;
  converse : ConverseRequest → W → (exn + ConverseResponse) * W
}.
Arguments apply_guardrail {W} _ _ _.
Arguments converse {W} _ _ _.

Inductive Event : Type :=
| EvApplyGuardrail (req : ApplyGuardrailRequest)
| EvConverse (req : ConverseRequest).

(** [run c m w]: the value [m] returns, the world afterwards and the calls
    made, first call first. *)
Fixpoint run {W A : Type} (c : Bedrock W) (m : io A) (w : W)
    : A * W * list Event :=
  match m with
  | Ret a => (a, w, [])
  | ApplyGuardrail req k =>
      let '(r, w1) := apply_guardrail c req w in
      let '(a, w2, t) := run c (k r) w1 in
      (a, w2, EvApplyGuardrail req :: t)
  | Converse req k =>
      let '(r, w1) := converse c req w in
      let '(a, w2, t) := run c (k r) w1 in
      (a, w2, EvConverse req :: t)
  end.

Definition is_converse (e : Event) : bool :=
  match e with
  | EvConverse _ => true
  | EvApplyGuardrail _ => false
  end.

(** ** [GuardrailService] *)

(** The configuration read in [__init__]. *)
Record GuardrailService : Type := {
  region : string;
  guardrail_id : string;
  guardrail_version : string;
  model_id : string
}.

Module Service.
Import Interpreter.

Section WithSelf.
Variable self : GuardrailService.

Definition guardrail_request (text : string) : ApplyGuardrailRequest :=
  {| guardrailIdentifier := guardrail_id self;
     guardrailVersion := guardrail_version self;
     content := text;
     source := "INPUT" |}.

(** The [try] body of [check_content] after the call has answered. *)
Definition check_result (text : string) (response : GuardrailResponse)
    : exn + gmap string pyval :=
  let action := default (PStr "UNKNOWN") (resp_action response) in
  let assessments := default [] (resp_assessments response) in
  let outputs := default [] (resp_outputs response) in
  reasons ← _parse_assessments assessments;
  let masked_text :=
    match outputs with
    | o :: _ => default (PStr "") (o !! "text")
    | [] => PNone
    end in
  let is_blocked :=
    bool_decide (action ∈ [PStr "BLOCK"; PStr "GUARDRAIL_INTERVENED"]) in
  let reasons :=
    if is_blocked && bool_decide (reasons = []) then
      ["Nội dung vi phạm chính sách guardrail"]
    else if negb is_blocked && bool_decide (reasons = []) then
      ["Nội dung an toàn"]
    else reasons in
  let result : gmap string pyval :=
    <["success" := VBool true]> (
    <["text" := VStr text]> (
    <["action" := leaf_val action]> (
    <["reasons" := VList (VStr <$> reasons)]> (
    <["is_blocked" := VBool is_blocked]> ∅)))) in
  let result :=
    if truthy masked_text then <["masked_text" := leaf_val masked_text]> result
    else result in
  inr result.

(** The [except Exception as e] clause of [check_content]. *)
Definition check_failure (text : string) (e : exn) : gmap string pyval :=
  <["success" := VBool false]> (
  <["error" := VStr (exn_msg e)]> (
  <["error_type" := VStr (exn_type e)]> (
  <["text" := VStr text]> (
  <["is_blocked" := VBool false]> ∅)))).

Definition check_content (text : string) : io (gmap string pyval) :=
  ApplyGuardrail (guardrail_request text) (λ r,
    Ret (match r ≫= check_result text with
         | inr result => result
         | inl e => check_failure text e
         end)).

Definition converse_request (message : string) (system_prompt : option string)
    : ConverseRequest :=
  {| modelId := model_id self;
     user_text := message;
     maxTokens := 2000;
     temperature := Q2Qc (7 # 10);
     guardrailConfig :=
       <["guardrailIdentifier" := guardrail_id self]> (
       <["guardrailVersion" := guardrail_version self]> (
       <["trace" := "enabled"]> ∅));
     system :=
       match system_prompt with
       | Some p => if bool_decide (p ≠ "") then Some p else None
       | None => None
       end |}.

(** [response['output']['message']['content'][0]['text']] *)
Definition ai_response_of (response : ConverseResponse) : exn + pyleaf :=
  match output response with
  | None => inl (KeyError "output")
  | Some out =>
      match out !! "message" with
      | None => inl (KeyError "message")
      | Some msg =>
          match msg !! "content" with
          | None => inl (KeyError "content")
          | Some [] => inl (IndexError "list index out of range")
          | Some (c :: _) =>
              match c !! "text" with
              | None => inl (KeyError "text")
              | Some t => inr t
              end
          end
      end
  end.

(** The [try] body of [chat_with_ai] after [converse] has answered. *)
Definition chat_result (message : string) (input_check : gmap string pyval)
    (response : ConverseResponse) : exn + gmap string pyval :=
  let stop_reason := default PNone (stopReason response) in
  if bool_decide (stop_reason = PStr "guardrail_intervened") then
    inr (<["success" := VBool false]> (
         <["message" :=
             VStr "Phản hồi của AI bị chặn vì vi phạm chính sách nội dung"]> (
         <["reasons" := VList [VStr "Output vi phạm guardrail"]]> (
         <["input_check" := VDict input_check]> (
         <["stop_reason" := leaf_val stop_reason]> ∅)))))
  else
    ai_response ← ai_response_of response;
    match ai_response with
    | PNone => inl (TypeError "object of type 'NoneType' has no len()")
    | PStr _ =>
        inr (<["success" := VBool true]> (
             <["user_message" := VStr message]> (
             <["ai_response" := leaf_val ai_response]> (
             <["is_safe" := VBool true]> (
             <["input_check" := VDict input_check]> (
             <["stop_reason" := leaf_val stop_reason]> ∅))))))
    end.

(** The [except Exception as e] clause of [chat_with_ai]. *)
Definition chat_failure (e : exn) : gmap string pyval :=
  <["success" := VBool false]> (
  <["error" := VStr (exn_msg e)]> (
  <["error_type" := VStr (exn_type e)]> ∅)).

(** The payload returned when the input check blocks. *)
Definition input_blocked (input_check : gmap string pyval)
    : gmap string pyval :=
  <["success" := VBool false]> (
  <["message" :=
      VStr "Tin nhắn của bạn bị chặn vì vi phạm chính sách nội dung"]> (
  <["reasons" := default (VList []) (input_check !! "reasons")]> (
  <["input_check" := VDict input_check]> ∅))).

Definition chat_with_ai (message : string) (system_prompt : option string)
    : io (gmap string pyval) :=
  input_check ← check_content message;
  if py_truthy (default VNone (input_check !! "is_blocked")) then
    Ret (input_blocked input_check)
  else
    Converse (converse_request message system_prompt) (λ r,
      Ret (match r ≫= chat_result message input_check with
           | inr result => result
           | inl e => chat_failure e
           end)).

(** ** The batch route of [api.py] *)

(** [for text in data['texts']: results.append(check_content(text))] *)
Fixpoint batch_loop (results : list pyval) (texts : list string)
    : io (list pyval) :=
  match texts with
  | [] => Ret results
  | text :: rest =>
      result ← check_content text;
      batch_loop (results ++ [VDict result]) rest
  end.

(** [batch_check]: [data] is the value of [request.json] for a JSON body,
    [None] for the body [null] and otherwise an object whose [texts] field
    is a list of strings. A request for which [request.json] itself raises
    (no body, a body that is not JSON) does not reach this code and is not
    part of the model. The answer is the payload given to [jsonify] and the
    HTTP status. *)
Definition batch_check (data : option (gmap string (list string)))
    : io (gmap string pyval * Z) :=
  match data with
  | None => Ret (<["error" := VStr "Missing 'texts' array"]> ∅, 400%Z)
  | Some d =>
      if bool_decide (d = ∅) then
        Ret (<["error" := VStr "Missing 'texts' array"]> ∅, 400%Z)
      else
        match d !! "texts" with
        | None => Ret (<["error" := VStr "Missing 'texts' array"]> ∅, 400%Z)
        | Some texts =>
            results ← batch_loop [] texts;
            Ret (<["count" := VInt (Z.of_nat (length results))]> (
                 <["results" := VList results]> ∅), 200%Z)
        end
  end.

End WithSelf.
End Service.

(** ** Vocabulary of the statements *)

Module Props.

(** The list stored under [list_name] in the sub-section [category] of an
    assessment; empty when the sub-section or the list is absent. *)
Definition entries_of (a : assessment) (category list_name : string)
    : list entry :=
  match a !! category with
  | Some p => default [] (p !! list_name)
  | None => []
  end.

(** Entries of the four lists whose [action] the interpreter reads. *)
Definition checked_entries (a : assessment) : list entry :=
  entries_of a "contentPolicy" "filters"
  ++ entries_of a "sensitiveInformationPolicy" "piiEntities"
  ++ entries_of a "sensitiveInformationPolicy" "regexes"
  ++ entries_of a "topicPolicy" "topics".

(** Entries of the two word-policy lists. *)
Definition word_entries (a : assessment) : list entry :=
  entries_of a "wordPolicy" "customWords"
  ++ entries_of a "wordPolicy" "managedWordLists".

(** The entry's action is the sentinel. *)
Definition action_is_none (e : entry) : Prop :=
  e !! "action" = Some (PStr "NONE").

(** The entry's action key is absent, [None] or the empty string. *)
Definition action_missing (e : entry) : Prop :=
  e !! "action" = None ∨ e !! "action" = Some PNone
  ∨ e !! "action" = Some (PStr "").

(** An entry that adds nothing in the action-checked lists. *)
Definition silent (e : entry) : Prop := action_is_none e ∨ action_missing e.

(** The term a custom-word entry is listed with: its [match], or the empty
    string when the key is absent. *)
Definition matched_term (w : entry) : string :=
  fmt (default (PStr "") (w !! "match")).

(** Every value of the entry is a string, as in the provider's schema. *)
Definition entry_in_schema (e : entry) : Prop :=
  map_Forall (λ _ v, v ≠ PNone) e.

Definition assessment_in_schema (a : assessment) : Prop :=
  map_Forall (λ _ (p : policy),
    map_Forall (λ _ (l : list entry), Forall entry_in_schema l) p) a.

(** The reasons the word-policy branch adds for the lists [ws]
    ([customWords]) and [ms] ([managedWordLists]), as the specification words
    them: the first [min N 3] terms joined by [", "], the marker when
    [N > 3], and the count of managed lists. *)
Definition custom_words_spec (ws : list entry) : list string :=
  if bool_decide (ws = []) then []
  else
    let listed :=
      String.concat ", " (matched_term <$> take (length ws `min` 3) ws) in
    ["Từ bị cấm: "
     +:+ (if bool_decide (3 < length ws) then listed +:+ "..." else listed)].

Definition managed_lists_spec (ms : list entry) : list string :=
  if bool_decide (ms = []) then []
  else ["Managed word list: " +:+ pretty (length ms) +:+ " vi phạm"].

(** The three values [check_content] computes from the answer: the reason
    list after the default-reason substitution, the blocked flag and the
    masked text. *)
Definition final_reasons (is_blocked : bool) (raw : list string)
    : list string :=
  if is_blocked && bool_decide (raw = []) then
    ["Nội dung vi phạm chính sách guardrail"]
  else if negb is_blocked && bool_decide (raw = []) then ["Nội dung an toàn"]
  else raw.

Definition blocked_action (response : GuardrailResponse) : bool :=
  bool_decide (default (PStr "UNKNOWN") (resp_action response)
               ∈ [PStr "BLOCK"; PStr "GUARDRAIL_INTERVENED"]).

Definition masked_text_of (response : GuardrailResponse) : pyleaf :=
  match default [] (resp_outputs response) with
  | o :: _ => default (PStr "") (o !! "text")
  | [] => PNone
  end.

(** The batch route as the specification words it: the check operation run
    on each text in turn, the world threaded from one call to the next;
    the results in input order, and the world at the end. *)
Fixpoint check_each {W : Type} (self : GuardrailService) (c : Bedrock W)
    (texts : list string) (w : W) : list (gmap string pyval) * W :=
  match texts with
  | [] => ([], w)
  | text :: rest =>
      let '(result, w1, _) := run c (Service.check_content self text) w in
      let '(results, w2) := check_each self c rest w1 in
      (result :: results, w2)
  end.

End Props.

(** ** Sample data *)

Module Sample.
Import Interpreter Service.

Definition str_entry (l : list (string * string)) : entry :=
  list_to_map (prod_map id PStr <$> l).

Definition svc : GuardrailService :=
  {| region := "us-east-1"; guardrail_id := "gr-1";
     guardrail_version := "1"; model_id := "model-1" |}.

(** A client that gives the same two answers to every call. *)
Definition fixed_client (r : exn + GuardrailResponse)
    (r2 : exn + ConverseResponse) : Bedrock unit :=
  {| apply_guardrail := λ _ w, (r, w); converse := λ _ w, (r2, w) |}.

Definition no_converse : exn + ConverseResponse :=
  inl (Exn "EndpointConnectionError" "unreachable").

Definition words5 : list entry :=
  [str_entry [("match", "a")]; str_entry [("match", "b")];
   str_entry [("match", "c")]; str_entry [("match", "d")];
   str_entry [("match", "e")]].

Definition word_assessment (ws ms : list entry) : assessment :=
  {[ "wordPolicy" := <["customWords" := ws]> {[ "managedWordLists" := ms ]} ]}.

(** One custom word whose action is the sentinel. *)
Definition none_word : list assessment :=
  [ {[ "wordPolicy" :=
         {[ "customWords" :=
              [str_entry [("match", "x"); ("action", "NONE")]] ]} ]} ].

(** Entries with action ["NONE"] in the four action-checked lists. *)
Definition none_everywhere : list assessment :=
  [ <["contentPolicy" :=
        {[ "filters" := [str_entry [("type", "HATE"); ("action", "NONE")]] ]}]> (
    <["sensitiveInformationPolicy" :=
        <["piiEntities" := [str_entry [("type", "EMAIL"); ("action", "NONE")]]]>
        {[ "regexes" := [str_entry [("name", "id"); ("action", "NONE")]] ]}]> (
    <["wordPolicy" := ∅]>
    {[ "topicPolicy" :=
         {[ "topics" := [str_entry [("name", "t"); ("action", "NONE")]] ]} ]})) ].

Definition allowed : GuardrailResponse :=
  {| resp_action := Some (PStr "NONE"); resp_assessments := Some [];
     resp_outputs := None |}.

Definition intervened : GuardrailResponse :=
  {| resp_action := Some (PStr "GUARDRAIL_INTERVENED");
     resp_assessments := Some []; resp_outputs := None |}.

(** The provider hands back the text it was given. *)
Definition echo (text : string) : GuardrailResponse :=
  {| resp_action := Some (PStr "NONE"); resp_assessments := Some [];
     resp_outputs := Some [ {[ "text" := PStr text ]} ] |}.

Definition masked (text : string) : GuardrailResponse :=
  {| resp_action := Some (PStr "GUARDRAIL_INTERVENED");
     resp_assessments := Some [];
     resp_outputs := Some [ {[ "text" := PStr text ]} ] |}.

End Sample.

(** ** [GuardrailService.__init__] *)

Module Startup.

Definition ValueError (msg : string) : exn := Exn "ValueError" msg.

(** [__init__] over the process environment [env] (as it is after
    [load_dotenv]); [boto3_client service region] is
    [boto3.client(service, region_name=region)], which answers a client or
    raises. [os.getenv(name, dflt)] is [default dflt (env !! name)] and
    [os.getenv(name)] is [env !! name]. The result is the configured
    service and its client. *)
Definition __init__ {C : Type} (boto3_client : string → string → exn + C)
    (env : gmap string string) : exn + (GuardrailService * C) :=
  let region := default "us-east-1" (env !! "AWS_REGION") in
  let guardrail_id := env !! "GUARDRAIL_ID" in
  let guardrail_version := default "1" (env !! "GUARDRAIL_VERSION") in
  let model_id :=
    default "anthropic.claude-3-haiku-20240307-v1:0" (env !! "MODEL_ID") in
  match guardrail_id with
  | None =>
      inl (ValueError "❌ GUARDRAIL_ID không được cấu hình trong file .env
Vui lòng thêm: GUARDRAIL_ID=your-guardrail-id")
  | Some gid =>
      if bool_decide (gid = "") then
        inl (ValueError "❌ GUARDRAIL_ID không được cấu hình trong file .env
Vui lòng thêm: GUARDRAIL_ID=your-guardrail-id")
      else
        bedrock ← boto3_client "bedrock-runtime" region;
        inr ({| region := region; guardrail_id := gid;
                guardrail_version := guardrail_version;
                model_id := model_id |}, bedrock)
  end.

End Startup.

(** ** The other routes of [api.py] *)

(** [data] is the value of [request.json] for a JSON body: [None] for the
    body [null], otherwise an object whose fields hold strings. A request
    for which [request.json] itself raises (no body, a body that is not
    JSON) does not reach the code of a route and is not part of the model.
    An answer is the payload given to [jsonify] and the HTTP status. *)
Module Routes.
Import Service.

Section WithSelf.
Variable self : GuardrailService.

Definition health_check : gmap string pyval * Z :=
  (<["status" := VStr "healthy"]> (<["service" := VStr "guardrail-api"]> ∅),
   200%Z).

Definition check (data : option (gmap string string))
    : io (gmap string pyval * Z) :=
  match data with
  | None => Ret (<["error" := VStr "Missing 'text' field"]> ∅, 400%Z)
  | Some d =>
      if bool_decide (d = ∅) then
        Ret (<["error" := VStr "Missing 'text' field"]> ∅, 400%Z)
      else
        match d !! "text" with
        | None => Ret (<["error" := VStr "Missing 'text' field"]> ∅, 400%Z)
        | Some text =>
            result ← check_content self text;
            Ret (result, 200%Z)
        end
  end.

Definition chat (data : option (gmap string string))
    : io (gmap string pyval * Z) :=
  match data with
  | None => Ret (<["error" := VStr "Missing 'message' field"]> ∅, 400%Z)
  | Some d =>
      if bool_decide (d = ∅) then
        Ret (<["error" := VStr "Missing 'message' field"]> ∅, 400%Z)
      else
        match d !! "message" with
        | None =>
            Ret (<["error" := VStr "Missing 'message' field"]> ∅, 400%Z)
        | Some message =>
            result ← chat_with_ai self message None;
            Ret (result, 200%Z)
        end
  end.

End WithSelf.
End Routes.

(** ** Further vocabulary *)

Module MoreProps.
Import Props.

(** The test [action and action != 'NONE'] of the four entry loops. *)
Definition active (e : entry) : bool :=
  let action := default PNone (e !! "action") in
  truthy action && bool_decide (action ≠ PStr "NONE").

(** The number of reasons one assessment accounts for: one for each active
    entry of the four action-checked lists, one for a non-empty
    [customWords] list and one for a non-empty [managedWordLists] list. *)
Definition reason_count (a : assessment) : nat :=
  length (List.filter active (checked_entries a))
  + (if bool_decide (entries_of a "wordPolicy" "customWords" = []) then 0
     else 1)
  + (if bool_decide (entries_of a "wordPolicy" "managedWordLists" = [])
     then 0 else 1).

(** The categories [_parse_assessments] looks up. *)
Definition categories : list string :=
  ["contentPolicy"; "sensitiveInformationPolicy"; "wordPolicy";
   "topicPolicy"].

(** Two assessments with the same four sub-sections. *)
Definition same_categories (a a' : assessment) : Prop :=
  Forall (λ k, a !! k = a' !! k) categories.

(** The ways the answer of [converse] can fail to hold
    [response['output']['message']['content'][0]['text']] as a string, each
    with the exception Python raises for it. *)
Definition malformed (response : ConverseResponse) (e : exn) : Prop :=
  (output response = None ∧ e = KeyError "output")
  ∨ (∃ out, output response = Some out ∧ out !! "message" = None
       ∧ e = KeyError "message")
  ∨ (∃ out msg, output response = Some out ∧ out !! "message" = Some msg
       ∧ msg !! "content" = None ∧ e = KeyError "content")
  ∨ (∃ out msg, output response = Some out ∧ out !! "message" = Some msg
       ∧ msg !! "content" = Some []
       ∧ e = IndexError "list index out of range")
  ∨ (∃ out msg c cs, output response = Some out
       ∧ out !! "message" = Some msg ∧ msg !! "content" = Some (c :: cs)
       ∧ c !! "text" = None ∧ e = KeyError "text")
  ∨ (∃ out msg c cs, output response = Some out
       ∧ out !! "message" = Some msg ∧ msg !! "content" = Some (c :: cs)
       ∧ c !! "text" = Some PNone
       ∧ e = TypeError "object of type 'NoneType' has no len()").

(** The keys of a successful check result, [masked_text] apart, and the keys
    of a failed one. *)
Definition success_keys : gset string :=
  {[ "success"; "text"; "action"; "reasons"; "is_blocked" ]}.

Definition failure_keys : gset string :=
  {[ "success"; "error"; "error_type"; "text"; "is_blocked" ]}.

End MoreProps.

(** ** Further sample data *)

Module MoreSample.
Import Sample.

Definition active_filter : entry :=
  str_entry [("type", "HATE"); ("action", "BLOCKED"); ("confidence", "HIGH")].

Definition mixed : list assessment :=
  [ <["contentPolicy" :=
        {[ "filters" := [active_filter;
                         str_entry [("type", "INSULTS"); ("action", "NONE")]] ]}]>
    {[ "wordPolicy" := {[ "customWords" := words5 ]} ]};
    {[ "topicPolicy" :=
         {[ "topics" := [str_entry [("name", "Salary"); ("action", "BLOCKED")]] ]} ]} ].

(** An active filter, five custom words and an active topic. *)
Definition ordered : assessment :=
  <["topicPolicy" :=
      {[ "topics" := [str_entry [("name", "Salary"); ("action", "BLOCKED")]] ]}]>
    (<["contentPolicy" := {[ "filters" := [active_filter] ]}]>
       (word_assessment words5 [])).

(** One managed word list whose action is the sentinel, and the same entry
    as a content filter. *)
Definition none_managed : list assessment :=
  [ {[ "wordPolicy" :=
         {[ "managedWordLists" :=
              [str_entry [("match", "x"); ("type", "PROFANITY");
                          ("action", "NONE")]] ]} ]} ].

Definition none_filter : list assessment :=
  [ {[ "contentPolicy" :=
         {[ "filters" :=
              [str_entry [("match", "x"); ("type", "PROFANITY");
                          ("action", "NONE")]] ]} ]} ].

(** A custom word whose [match] is [None], after one with a string. *)
Definition none_match : assessment :=
  {[ "wordPolicy" :=
       {[ "customWords" :=
            [str_entry [("match", "a")]; {[ "match" := PNone ]}] ]} ]}.

Definition blocked_none_match : GuardrailResponse :=
  {| resp_action := Some (PStr "BLOCK");
     resp_assessments := Some [none_match]; resp_outputs := None |}.

Definition reply (stop : string) (text : string) : ConverseResponse :=
  {| stopReason := Some (PStr stop);
     output :=
       Some {[ "message" := {[ "content" := [ {[ "text" := PStr text ]} ] ]} ]} |}.

Definition no_output : ConverseResponse :=
  {| stopReason := Some (PStr "end_turn"); output := None |}.

Definition client_error : exn := Exn "ClientError" "AccessDeniedException".

Definition env_full : gmap string string :=
  <["GUARDRAIL_ID" := "gr-1"]> {[ "AWS_REGION" := "eu-west-1" ]}.

(** A client factory that always answers, and one that always raises. *)
Definition client_ok (service region : string) : exn + string :=
  inr (service +:+ "@" +:+ region).

Definition client_fails (service region : string) : exn + string :=
  inl (Exn "NoRegionError" "You must specify a region.").

End MoreSample.

(** * Properties *)

(** ** The interpreter *)

Module InterpreterFacts.
Import Interpreter Props.

Ltac silent_step :=
  intros [H | [H | [H | H]]];
  match goal with
  | |- ?f _ _ = _ => unfold f
  end;
  unfold action_is_none in *; rewrite H; reflexivity.

Lemma content_filter_silent (rs : list string) (e : entry) :
  silent e → content_filter rs e = rs.
Proof. silent_step. Qed.

Lemma pii_entity_silent (rs : list string) (e : entry) :
  silent e → pii_entity rs e = rs.
Proof. silent_step. Qed.

Lemma regex_match_silent (rs : list string) (e : entry) :
  silent e → regex_match rs e = rs.
Proof. silent_step. Qed.

Lemma topic_silent (rs : list string) (e : entry) :
  silent e → topic rs e = rs.
Proof. silent_step. Qed.

Lemma foldl_silent (step : list string → entry → list string)
    (rs : list string) (l : list entry) :
  (∀ rs e, silent e → step rs e = rs) →
  Forall silent l → foldl step rs l = rs.
Proof.
  intros Hstep Hl. induction Hl as [| e l He _ IH]; simpl.
  - reflexivity.
  - rewrite (Hstep _ _ He). exact IH.
Qed.

(** With no active action in the four action-checked lists, the loop body
    is its word-policy branch. *)
Lemma parse_assessment_word_only (rs : list string) (a : assessment) :
  Forall silent (checked_entries a) →
  parse_assessment rs a = word_policy rs a.
Proof.
  unfold checked_entries, entries_of.
  rewrite !Forall_app. intros (Hf & Hp & Hr & Ht).
  unfold parse_assessment, content_policy, sensitive_information_policy,
    topic_policy.
  destruct (a !! "contentPolicy") as [cp |];
    [rewrite (foldl_silent _ _ _ content_filter_silent Hf) |];
  (destruct (a !! "sensitiveInformationPolicy") as [sip |];
    [rewrite (foldl_silent _ _ _ pii_entity_silent Hp),
       (foldl_silent _ _ _ regex_match_silent Hr) |]);
  (destruct (word_policy rs a) as [e | rs']; simpl; [reflexivity |]);
  (destruct (a !! "topicPolicy") as [tp |];
    [rewrite (foldl_silent _ _ _ topic_silent Ht) |]);
  reflexivity.
Qed.

(** No entry with an active action and no word-policy entry: the loop body
    leaves [reasons] as it is. *)
Lemma parse_assessment_silent (rs : list string) (a : assessment) :
  Forall silent (checked_entries a) → word_entries a = [] →
  parse_assessment rs a = inr rs.
Proof.
  intros Ha Hw. rewrite (parse_assessment_word_only _ _ Ha).
  unfold word_entries, entries_of in Hw. apply app_eq_nil in Hw as [Hcw Hml].
  unfold word_policy.
  destruct (a !! "wordPolicy") as [wp |]; [| reflexivity].
  rewrite Hcw, Hml. reflexivity.
Qed.

Lemma parse_loop_silent (rs : list string) (l : list assessment) :
  Forall (λ a, Forall silent (checked_entries a) ∧ word_entries a = []) l →
  parse_loop rs l = inr rs.
Proof.
  induction 1 as [| a l [Ha Hw] _ IH]; simpl.
  - reflexivity.
  - rewrite (parse_assessment_silent _ _ Ha Hw). exact IH.
Qed.

End InterpreterFacts.

Module InterpreterClaims.
Import Interpreter Props InterpreterFacts.

Lemma str_items_strings (i : nat) (items : list pyleaf) :
  Forall (λ v, v ≠ PNone) items → str_items i items = inr (fmt <$> items).
Proof.
  intros H. revert i. induction H as [| v items Hv _ IH]; intros i; simpl.
  - reflexivity.
  - destruct v as [| s]; [congruence |]. rewrite IH. reflexivity.
Qed.

Lemma take_min_length {A : Type} (n : nat) (l : list A) :
  take (length l `min` n) l = take n l.
Proof.
  destruct (decide (length l ≤ n)) as [Hle | Hgt].
  - rewrite Nat.min_l by done. by rewrite !take_ge by lia.
  - by rewrite Nat.min_r by lia.
Qed.

Lemma custom_words_reason_strings (rs : list string) (ws : list entry) :
  Forall (λ w : entry, w !! "match" ≠ Some PNone) (take 3 ws) →
  custom_words_reason rs ws = inr (rs ++ custom_words_spec ws).
Proof.
  intros Hm. unfold custom_words_reason, custom_words_spec, str_join.
  destruct ws as [| w ws]; [simpl; by rewrite app_nil_r |].
  rewrite bool_decide_eq_true_2 by done.
  rewrite (bool_decide_eq_false_2 (w :: ws = [])) by done.
  rewrite str_items_strings.
  - rewrite take_min_length. simpl mbind. unfold mbind, exn_bind.
    rewrite <- list_fmap_compose. reflexivity.
  - apply Forall_fmap. eapply Forall_impl; [exact Hm |].
    intros e He. simpl.
    destruct (e !! "match") as [[| s] |] eqn:E; simpl; congruence.
Qed.

Lemma managed_lists_reason_spec (rs : list string) (ms : list entry) :
  managed_lists_reason rs ms = rs ++ managed_lists_spec ms.
Proof.
  unfold managed_lists_reason, managed_lists_spec.
  destruct ms; simpl; [by rewrite app_nil_r | reflexivity].
Qed.

Lemma schema_match (e : entry) :
  entry_in_schema e → e !! "match" ≠ Some PNone.
Proof. intros H Hm. by apply (map_Forall_lookup_1 _ _ _ _ H Hm). Qed.

Lemma word_policy_schema (rs : list string) (a : assessment) :
  assessment_in_schema a → ∃ rs', word_policy rs a = inr rs'.
Proof.
  intros Ha. unfold word_policy.
  destruct (a !! "wordPolicy") as [wp |] eqn:Hwp; [| by eexists].
  pose proof (map_Forall_lookup_1 _ _ _ _ Ha Hwp) as Hp. simpl in Hp.
  rewrite custom_words_reason_strings; [by eexists |].
  destruct (wp !! "customWords") as [ws |] eqn:Hws; simpl; [| constructor].
  pose proof (map_Forall_lookup_1 _ _ _ _ Hp Hws) as Hl. simpl in Hl.
  apply Forall_take. eapply Forall_impl; [exact Hl |]. apply schema_match.
Qed.

Lemma parse_loop_schema (rs : list string) (l : list assessment) :
  Forall assessment_in_schema l → ∃ rs', parse_loop rs l = inr rs'.
Proof.
  intros H. revert rs. induction H as [| a l Ha _ IH]; intros rs; simpl.
  - by eexists.
  - unfold parse_assessment.
    destruct (word_policy_schema
                (sensitive_information_policy (content_policy rs a) a) a Ha)
      as [rs' ->].
    simpl. apply IH.
Qed.

(** C2 (the code falls short of the claim): the claim asks for an empty
    reason list when every entry's action is ["NONE"]. The loops over
    filters, PII entities, regexes and topics test
    [action and action != 'NONE'], and an entry with action ["NONE"] adds
    nothing there; the word-policy branch has no such test, so a custom
    word, and likewise a managed word list, whose action is ["NONE"] (every
    entry of the input has action ["NONE"], the other sub-sections are
    absent) still adds a reason. *)
Theorem parse_assessments_word_policy_ignores_action :
  (Forall (λ a, Forall action_is_none (checked_entries a ++ word_entries a))
     Sample.none_word
   ∧ _parse_assessments Sample.none_word = inr ["Từ bị cấm: x"])
  ∧ (Forall (λ a, Forall action_is_none (checked_entries a ++ word_entries a))
       MoreSample.none_managed
     ∧ _parse_assessments MoreSample.none_managed
       = inr ["Managed word list: 1 vi phạm"])
  ∧ (Forall (λ a, Forall action_is_none (checked_entries a ++ word_entries a))
       MoreSample.none_filter
     ∧ _parse_assessments MoreSample.none_filter = inr []).
Proof.
  split; [| split]; (split; [repeat constructor | reflexivity]).
Qed.

(** What the four action-checked loops do: when every filter, PII entity,
    regex and topic entry has action ["NONE"] (or its sub-section is
    absent) and the two word-policy lists are empty or absent,
    [_parse_assessments] returns the empty list; in those four lists an
    entry with action ["NONE"] adds no reason. *)
Theorem parse_assessments_all_none (assessments : list assessment) :
  Forall (λ a, Forall action_is_none (checked_entries a)
               ∧ word_entries a = []) assessments →
  _parse_assessments assessments = inr []
  ∧ ∀ (rs : list string) (e : entry), action_is_none e →
      content_filter rs e = rs ∧ pii_entity rs e = rs
      ∧ regex_match rs e = rs ∧ topic rs e = rs.
Proof.
  intros H. split.
  - apply parse_loop_silent.
    eapply Forall_impl; [exact H |]. intros a [Ha Hw]. split; [| exact Hw].
    eapply Forall_impl; [exact Ha |]. intros e He. by left.
  - intros rs e He. assert (Hs : silent e) by (by left).
    by rewrite content_filter_silent, pii_entity_silent, regex_match_silent,
         topic_silent.
Qed.

Lemma parse_assessments_all_none_witness :
  _parse_assessments Sample.none_everywhere = inr [].
Proof.
  apply (parse_assessments_all_none Sample.none_everywhere).
  repeat constructor.
Defined.

(** C10: in the content-policy, PII-entity, regex and topic loops an entry
    whose [action] key is absent, [None] or the empty string adds no reason:
    the loop body leaves [reasons] unchanged, exactly as it does for the same
    entry with action ["NONE"]. *)
Theorem missing_action_adds_no_reason (rs : list string) (e : entry) :
  action_missing e →
  (content_filter rs e = rs ∧ pii_entity rs e = rs
   ∧ regex_match rs e = rs ∧ topic rs e = rs)
  ∧ (content_filter rs e = content_filter rs (<["action" := PStr "NONE"]> e)
     ∧ pii_entity rs e = pii_entity rs (<["action" := PStr "NONE"]> e)
     ∧ regex_match rs e = regex_match rs (<["action" := PStr "NONE"]> e)
     ∧ topic rs e = topic rs (<["action" := PStr "NONE"]> e)).
Proof.
  intros Hm.
  assert (Hs : silent e) by (by right).
  assert (Hn : silent (<["action" := PStr "NONE"]> e)).
  { left. unfold action_is_none. apply lookup_insert_eq. }
  rewrite !(content_filter_silent _ _ Hn), !(pii_entity_silent _ _ Hn),
    !(regex_match_silent _ _ Hn), !(topic_silent _ _ Hn).
  rewrite !(content_filter_silent _ _ Hs), !(pii_entity_silent _ _ Hs),
    !(regex_match_silent _ _ Hs), !(topic_silent _ _ Hs).
  done.
Qed.

Lemma missing_action_adds_no_reason_witness :
  action_missing (Sample.str_entry [("type", "HATE"); ("action", "")])
  ∧ content_filter ["r"] (Sample.str_entry [("type", "HATE"); ("action", "")])
    = ["r"].
Proof.
  assert (H : action_missing
                (Sample.str_entry [("type", "HATE"); ("action", "")])).
  { right. right. reflexivity. }
  split; [exact H |].
  exact (proj1 (proj1 (missing_action_adds_no_reason ["r"] _ H))).
Defined.

(** C8: on every assessment list of the provider's schema (any category, any
    list and any entry key present or absent, the values present being
    strings) [_parse_assessments] returns a list and raises nothing; on the
    empty assessment list it returns the empty list. *)
Theorem parse_assessments_total (assessments : list assessment) :
  Forall assessment_in_schema assessments →
  (∃ reasons, _parse_assessments assessments = inr reasons)
  ∧ _parse_assessments [] = inr [].
Proof.
  intros H. split; [| reflexivity]. by apply parse_loop_schema.
Qed.

Lemma parse_assessments_total_witness :
  ∃ reasons,
    _parse_assessments
      (Sample.none_everywhere
       ++ [Sample.word_assessment Sample.words5 [∅]; ∅]) = inr reasons.
Proof.
  refine (proj1 (parse_assessments_total _ _)).
  unfold assessment_in_schema, entry_in_schema.
  apply (bool_decide_unpack _). vm_compute. exact I.
Defined.

(** C6: for a word-policy sub-section with [N] custom words (their matches
    strings, or absent), the branch adds nothing for [N = 0] and otherwise
    one reason listing the first [min N 3] matched terms joined by [", "],
    followed by ["..."] exactly when [N > 3]; a non-empty [managedWordLists]
    adds one more reason with the number of its entries. When no other
    sub-section has an active entry these are all the reasons of
    [_parse_assessments]. *)
Theorem word_policy_reasons (rs : list string) (a : assessment) (wp : policy) :
  a !! "wordPolicy" = Some wp →
  Forall (λ w : entry, w !! "match" ≠ Some PNone)
    (take 3 (default [] (wp !! "customWords"))) →
  word_policy rs a
  = inr (rs ++ custom_words_spec (default [] (wp !! "customWords"))
            ++ managed_lists_spec (default [] (wp !! "managedWordLists")))
  ∧ (Forall silent (checked_entries a) →
     _parse_assessments [a]
     = inr (custom_words_spec (default [] (wp !! "customWords"))
            ++ managed_lists_spec (default [] (wp !! "managedWordLists")))).
Proof.
  intros Hwp Hm.
  assert (Hw : ∀ rs, word_policy rs a
    = inr (rs ++ custom_words_spec (default [] (wp !! "customWords"))
              ++ managed_lists_spec (default [] (wp !! "managedWordLists")))).
  { intros rs0. unfold word_policy. rewrite Hwp.
    rewrite (custom_words_reason_strings _ _ Hm). simpl.
    rewrite managed_lists_reason_spec. by rewrite <- app_assoc. }
  split; [apply Hw |].
  intros Hs. unfold _parse_assessments. simpl.
  rewrite (parse_assessment_word_only _ _ Hs), Hw. reflexivity.
Qed.

Lemma word_policy_reasons_witness :
  word_policy ["r"] (Sample.word_assessment Sample.words5 Sample.words5)
  = inr ["r"; "Từ bị cấm: a, b, c..."; "Managed word list: 5 vi phạm"]
  ∧ _parse_assessments [Sample.word_assessment Sample.words5 Sample.words5]
    = inr ["Từ bị cấm: a, b, c..."; "Managed word list: 5 vi phạm"].
Proof.
  assert (Hm : Forall (λ w : entry, w !! "match" ≠ Some PNone)
                 (take 3 Sample.words5)) by (repeat constructor; discriminate).
  destruct (word_policy_reasons ["r"]
              (Sample.word_assessment Sample.words5 Sample.words5)
              (<["customWords" := Sample.words5]>
                 {[ "managedWordLists" := Sample.words5 ]})
              eq_refl Hm) as [H1 H2].
  split; [exact H1 |]. apply H2. constructor.
Defined.

End InterpreterClaims.

(** ** The check, chat and batch operations *)

Module ServiceFacts.
Import Interpreter Service Props.

Lemma run_bind {W A B : Type} (c : Bedrock W) (m : io A) (f : A → io B)
    (w : W) :
  run c (m ≫= f) w
  = let '(a, w1, t1) := run c m w in
    let '(b, w2, t2) := run c (f a) w1 in
    (b, w2, t1 ++ t2).
Proof.
  revert w. induction m as [a | req k IH | req k IH]; intros w.
  - change (run c (f a) w
            = let '(b, w2, t2) := run c (f a) w in (b, w2, [] ++ t2)).
    by destruct (run c (f a) w) as [[b w2] t2].
  - simpl. change (io_bind f (k ?r)) with (k r ≫= f).
    destruct (apply_guardrail c req w) as [r w1]. rewrite IH.
    destruct (run c (k r) w1) as [[a w2] t1].
    by destruct (run c (f a) w2) as [[b w3] t2].
  - simpl. change (io_bind f (k ?r)) with (k r ≫= f).
    destruct (converse c req w) as [r w1]. rewrite IH.
    destruct (run c (k r) w1) as [[a w2] t1].
    by destruct (run c (f a) w2) as [[b w3] t2].
Qed.

Section WithSelf.
Variable self : GuardrailService.
Context {W : Type} (c : Bedrock W).

(** What [check_content] returns once the client has answered [r]. *)
Lemma run_check_content (text : string) (w : W) :
  run c (check_content self text) w
  = (match (apply_guardrail c (guardrail_request self text) w).1
           ≫= check_result text with
     | inr result => result
     | inl e => check_failure text e
     end,
     (apply_guardrail c (guardrail_request self text) w).2,
     [EvApplyGuardrail (guardrail_request self text)]).
Proof.
  unfold check_content. simpl.
  by destruct (apply_guardrail c (guardrail_request self text) w) as [r w1].
Qed.

(** The keys of a successful result. *)
Lemma check_result_fields (text : string) (response : GuardrailResponse)
    (result : gmap string pyval) :
  check_result text response = inr result →
  ∃ raw,
    _parse_assessments (default [] (resp_assessments response)) = inr raw
    ∧ result !! "success" = Some (VBool true)
    ∧ result !! "text" = Some (VStr text)
    ∧ result !! "is_blocked" = Some (VBool (blocked_action response))
    ∧ result !! "reasons"
      = Some (VList (VStr <$> final_reasons (blocked_action response) raw))
    ∧ result !! "masked_text"
      = (if truthy (masked_text_of response)
         then Some (leaf_val (masked_text_of response)) else None).
Proof.
  unfold check_result, blocked_action, masked_text_of, final_reasons.
  destruct (_parse_assessments (default [] (resp_assessments response)))
    as [e | raw]; simpl; [discriminate |].
  intros [= <-]. exists raw. split; [reflexivity |].
  destruct (truthy _); repeat split; reflexivity.
Qed.

(** A result with [success = True] comes from an answer of the client that
    the interpreter accepted. *)
Lemma check_content_success_inv (text : string) (w w1 : W)
    (result : gmap string pyval) (t : list Event) :
  run c (check_content self text) w = (result, w1, t) →
  result !! "success" = Some (VBool true) →
  ∃ response,
    (apply_guardrail c (guardrail_request self text) w).1 = inr response
    ∧ check_result text response = inr result.
Proof.
  rewrite run_check_content. intros [= Hr _ _] Hs.
  destruct (apply_guardrail c (guardrail_request self text) w).1
    as [e | response]; simpl in Hr.
  - subst result. discriminate Hs.
  - exists response. split; [reflexivity |].
    destruct (check_result text response) as [e | result'].
    + subst result. discriminate Hs.
    + by subst.
Qed.

End WithSelf.
End ServiceFacts.

Module ServiceClaims.
Import Interpreter Service Props ServiceFacts.

Lemma blocked_action_true (response : GuardrailResponse) :
  blocked_action response = true
  ↔ resp_action response = Some (PStr "BLOCK")
    ∨ resp_action response = Some (PStr "GUARDRAIL_INTERVENED").
Proof.
  unfold blocked_action. rewrite bool_decide_eq_true.
  rewrite !elem_of_cons, elem_of_nil.
  destruct (resp_action response) as [[| s] |]; simpl;
    intuition congruence.
Qed.

Lemma final_reasons_cons (b : bool) (raw : list string) :
  ∃ r rs, final_reasons b raw = r :: rs.
Proof.
  unfold final_reasons. destruct b, raw as [| r rs]; simpl; by do 2 eexists.
Qed.

(** A blocked result is a successful one: the failure object has
    [is_blocked = False]. *)
Lemma blocked_is_success {W : Type} (self : GuardrailService) (c : Bedrock W)
    (text : string) (w w1 : W) (result : gmap string pyval) (t : list Event) :
  run c (check_content self text) w = (result, w1, t) →
  result !! "is_blocked" = Some (VBool true) →
  result !! "success" = Some (VBool true).
Proof.
  rewrite run_check_content. intros [= Hr _ _] Hb.
  destruct (_ ≫= check_result text) as [e | result'] eqn:E.
  - subst result. discriminate Hb.
  - subst result'.
    destruct (apply_guardrail c (guardrail_request self text) w).1
      as [e | response]; [discriminate E |].
    apply check_result_fields in E as (raw & _ & Hs & _). exact Hs.
Qed.

(** C1: a successful [check_content] result has [is_blocked = True] exactly
    when the action of the provider's answer is ["BLOCK"] or
    ["GUARDRAIL_INTERVENED"], and [is_blocked = False] for every other
    action, an absent one included. *)
Theorem check_content_blocked_iff {W : Type} (self : GuardrailService)
    (c : Bedrock W) (text : string) (w w1 : W) (result : gmap string pyval)
    (t : list Event) :
  run c (check_content self text) w = (result, w1, t) →
  result !! "success" = Some (VBool true) →
  ∃ response,
    (apply_guardrail c (guardrail_request self text) w).1 = inr response
    ∧ (result !! "is_blocked" = Some (VBool true)
       ↔ resp_action response = Some (PStr "BLOCK")
         ∨ resp_action response = Some (PStr "GUARDRAIL_INTERVENED"))
    ∧ (¬ (resp_action response = Some (PStr "BLOCK")
          ∨ resp_action response = Some (PStr "GUARDRAIL_INTERVENED"))
       → result !! "is_blocked" = Some (VBool false)).
Proof.
  intros Hrun Hs.
  destruct (check_content_success_inv self c _ _ _ _ _ Hrun Hs)
    as (response & Hresp & Hres).
  exists response. split; [exact Hresp |].
  apply check_result_fields in Hres as (raw & _ & _ & _ & Hb & _).
  rewrite Hb, <- blocked_action_true.
  destruct (blocked_action response); intuition congruence.
Qed.

Lemma check_content_blocked_iff_witness :
  (run (Sample.fixed_client (inr Sample.intervened) Sample.no_converse)
     (check_content Sample.svc "hi") tt).1.1 !! "is_blocked"
  = Some (VBool true).
Proof.
  destruct (check_content_blocked_iff Sample.svc
              (Sample.fixed_client (inr Sample.intervened) Sample.no_converse)
              "hi" tt tt _ _ eq_refl eq_refl) as (response & Hr & Hiff & _).
  apply Hiff. simpl in Hr. injection Hr as <-. right. reflexivity.
Defined.

(** C3: in a successful [check_content] result the reason list is the one
    the interpreter collected when that is non-empty; when it is empty the
    list is exactly the "policy violation" default if blocked and exactly
    the "content safe" default if not. It is never empty. *)
Theorem check_content_default_reasons {W : Type} (self : GuardrailService)
    (c : Bedrock W) (text : string) (w w1 : W) (result : gmap string pyval)
    (t : list Event) :
  run c (check_content self text) w = (result, w1, t) →
  result !! "success" = Some (VBool true) →
  ∃ response raw b,
    (apply_guardrail c (guardrail_request self text) w).1 = inr response
    ∧ _parse_assessments (default [] (resp_assessments response)) = inr raw
    ∧ result !! "is_blocked" = Some (VBool b)
    ∧ (raw = [] → b = true →
       result !! "reasons"
       = Some (VList [VStr "Nội dung vi phạm chính sách guardrail"]))
    ∧ (raw = [] → b = false →
       result !! "reasons" = Some (VList [VStr "Nội dung an toàn"]))
    ∧ (raw ≠ [] → result !! "reasons" = Some (VList (VStr <$> raw)))
    ∧ ∃ r rs, result !! "reasons" = Some (VList (VStr r :: rs)).
Proof.
  intros Hrun Hs.
  destruct (check_content_success_inv self c _ _ _ _ _ Hrun Hs)
    as (response & Hresp & Hres).
  apply check_result_fields in Hres as (raw & Hraw & _ & _ & Hb & Hrs & _).
  exists response, raw, (blocked_action response).
  repeat (split; [assumption |]). rewrite Hrs.
  repeat split.
  - by intros -> ->.
  - by intros -> ->.
  - intros Hne. unfold final_reasons.
    rewrite (bool_decide_eq_false_2 (raw = [])) by done.
    by rewrite !andb_false_r.
  - destruct (final_reasons_cons (blocked_action response) raw)
      as (r & rs & ->).
    by exists r, (VStr <$> rs).
Qed.

Lemma check_content_default_reasons_witness :
  ∃ r rs,
    (run (Sample.fixed_client (inr Sample.allowed) Sample.no_converse)
       (check_content Sample.svc "hi") tt).1.1 !! "reasons"
    = Some (VList (VStr r :: rs)).
Proof.
  destruct (check_content_default_reasons Sample.svc
              (Sample.fixed_client (inr Sample.allowed) Sample.no_converse)
              "hi" tt tt _ _ eq_refl eq_refl)
    as (response & raw & b & _ & _ & _ & _ & _ & _ & H).
  exact H.
Defined.

(** C5: when the client raises inside [check_content], the call returns the
    failure object: [success = False], the exception's message and kind, the
    original text and [is_blocked = False]. *)
Theorem check_content_client_failure {W : Type} (self : GuardrailService)
    (c : Bedrock W) (text : string) (w w1 : W) (e : exn) :
  apply_guardrail c (guardrail_request self text) w = (inl e, w1) →
  ∃ result,
    run c (check_content self text) w
    = (result, w1, [EvApplyGuardrail (guardrail_request self text)])
    ∧ result !! "success" = Some (VBool false)
    ∧ result !! "error" = Some (VStr (exn_msg e))
    ∧ result !! "error_type" = Some (VStr (exn_type e))
    ∧ result !! "text" = Some (VStr text)
    ∧ result !! "is_blocked" = Some (VBool false)
    ∧ result !! "reasons" = None.
Proof.
  intros He. exists (check_failure text e).
  rewrite run_check_content, He. repeat split; reflexivity.
Qed.

Lemma check_content_client_failure_witness :
  (run (Sample.fixed_client (inl (Exn "ClientError" "denied"))
          Sample.no_converse)
     (check_content Sample.svc "hi") tt).1.1 !! "error_type"
  = Some (VStr "ClientError").
Proof.
  destruct (check_content_client_failure Sample.svc
              (Sample.fixed_client (inl (Exn "ClientError" "denied"))
                 Sample.no_converse)
              "hi" tt tt _ eq_refl) as (result & Hrun & _ & _ & Ht & _).
  rewrite Hrun. exact Ht.
Defined.

(** C7, as the claim states it, fails: the provider hands back the input
    text unchanged and the successful result still carries it under
    [masked_text]. *)
Lemma check_content_masked_text_echo :
  (run (Sample.fixed_client (inr (Sample.echo "hello")) Sample.no_converse)
     (check_content Sample.svc "hello") tt).1.1 !! "success"
  = Some (VBool true)
  ∧ masked_text_of (Sample.echo "hello") = PStr "hello"
  ∧ (run (Sample.fixed_client (inr (Sample.echo "hello")) Sample.no_converse)
       (check_content Sample.svc "hello") tt).1.1 !! "masked_text"
    = Some (VStr "hello").
Proof. repeat split; reflexivity. Qed.

(** C7 (amended): a successful [check_content] result has the key
    [masked_text] exactly when the provider's answer has a non-empty
    [outputs] list whose first entry holds a non-empty string under [text];
    the key then holds that string, equal to the input or not. Otherwise the
    key is absent. *)
Theorem check_content_masked_text {W : Type} (self : GuardrailService)
    (c : Bedrock W) (text : string) (w w1 : W) (result : gmap string pyval)
    (t : list Event) :
  run c (check_content self text) w = (result, w1, t) →
  result !! "success" = Some (VBool true) →
  ∃ response,
    (apply_guardrail c (guardrail_request self text) w).1 = inr response
    ∧ result !! "masked_text"
      = match default [] (resp_outputs response) with
        | o :: _ =>
            match o !! "text" with
            | Some (PStr s) => if bool_decide (s ≠ "") then Some (VStr s) else None
            | Some PNone | None => None
            end
        | [] => None
        end.
Proof.
  intros Hrun Hs.
  destruct (check_content_success_inv self c _ _ _ _ _ Hrun Hs)
    as (response & Hresp & Hres).
  exists response. split; [exact Hresp |].
  apply check_result_fields in Hres as (raw & _ & _ & _ & _ & _ & Hm).
  rewrite Hm. unfold masked_text_of.
  destruct (default [] (resp_outputs response)) as [| o os]; [reflexivity |].
  destruct (o !! "text") as [[| s] |]; reflexivity.
Qed.

Lemma check_content_masked_text_witness :
  (run (Sample.fixed_client (inr (Sample.masked "card {CREDIT_CARD}"))
          Sample.no_converse)
     (check_content Sample.svc "card 4111") tt).1.1 !! "masked_text"
  = Some (VStr "card {CREDIT_CARD}").
Proof.
  destruct (check_content_masked_text Sample.svc
              (Sample.fixed_client (inr (Sample.masked "card {CREDIT_CARD}"))
                 Sample.no_converse)
              "card 4111" tt tt _ _ eq_refl eq_refl) as (response & Hr & Hm).
  simpl in Hr. injection Hr as <-. exact Hm.
Defined.

(** C4: when the input check of [chat_with_ai] reports [is_blocked = True],
    the only call made is the [apply_guardrail] of that check, so [converse]
    is not called, and the payload returned has [success = False], the
    (non-empty) reason list of the input check and the input check itself
    under [input_check]. *)
Theorem chat_blocked_input {W : Type} (self : GuardrailService)
    (c : Bedrock W) (message : string) (system_prompt : option string)
    (w w1 : W) (input_check : gmap string pyval) (t : list Event) :
  run c (check_content self message) w = (input_check, w1, t) →
  input_check !! "is_blocked" = Some (VBool true) →
  ∃ result reasons,
    run c (chat_with_ai self message system_prompt) w = (result, w1, t)
    ∧ t = [EvApplyGuardrail (guardrail_request self message)]
    ∧ Forall (λ e, is_converse e = false) t
    ∧ result !! "success" = Some (VBool false)
    ∧ input_check !! "reasons" = Some (VList reasons)
    ∧ reasons ≠ []
    ∧ result !! "reasons" = Some (VList reasons)
    ∧ result !! "input_check" = Some (VDict input_check).
Proof.
  intros Hrun Hb.
  pose proof (blocked_is_success _ _ _ _ _ _ _ Hrun Hb) as Hs.
  destruct (check_content_success_inv self c _ _ _ _ _ Hrun Hs)
    as (response & _ & Hres).
  apply check_result_fields in Hres as (raw & _ & _ & _ & _ & Hrs & _).
  destruct (final_reasons_cons (blocked_action response) raw)
    as (r & rs & Hfin).
  rewrite Hfin in Hrs.
  exists (input_blocked input_check), (VStr <$> r :: rs).
  assert (Ht : t = [EvApplyGuardrail (guardrail_request self message)]).
  { rewrite run_check_content in Hrun. by injection Hrun as _ _ <-. }
  split.
  { unfold chat_with_ai. rewrite run_bind, Hrun, Hb. simpl.
    by rewrite app_nil_r. }
  split; [exact Ht |].
  split; [rewrite Ht; by repeat constructor |].
  split; [reflexivity |].
  split; [exact Hrs |].
  split; [done |].
  split; [| reflexivity].
  unfold input_blocked. rewrite Hrs. reflexivity.
Qed.

Lemma chat_blocked_input_witness :
  (run (Sample.fixed_client (inr Sample.intervened) Sample.no_converse)
     (chat_with_ai Sample.svc "hi" None) tt).2
  = [EvApplyGuardrail (guardrail_request Sample.svc "hi")].
Proof.
  destruct (chat_blocked_input Sample.svc
              (Sample.fixed_client (inr Sample.intervened) Sample.no_converse)
              "hi" None tt tt _ _ eq_refl eq_refl)
    as (result & reasons & Hrun & Ht & _).
  rewrite Hrun. exact Ht.
Defined.

End ServiceClaims.

(** ** The batch route *)

Module BatchClaims.
Import Service Props ServiceFacts.

Section WithClient.
Variable self : GuardrailService.
Context {W : Type} (c : Bedrock W).

Lemma check_each_cons (text : string) (rest : list string) (w : W) :
  check_each self c (text :: rest) w
  = ((run c (check_content self text) w).1.1
       :: (check_each self c rest (run c (check_content self text) w).1.2).1,
     (check_each self c rest (run c (check_content self text) w).1.2).2).
Proof.
  cbn [check_each].
  destruct (run c (check_content self text) w) as [[result w1] t].
  cbn [fst snd]. by destruct (check_each self c rest w1) as [results w2].
Qed.

Lemma check_each_length (texts : list string) (w : W) :
  length (check_each self c texts w).1 = length texts.
Proof.
  revert w. induction texts as [| text rest IH]; intros w; [done |].
  rewrite check_each_cons. simpl. by rewrite IH.
Qed.

(** The [i]-th result is the check of the [i]-th text, made in the world
    the first [i] checks have left. *)
Lemma check_each_lookup (texts : list string) (w : W) (i : nat)
    (text : string) :
  texts !! i = Some text →
  (check_each self c texts w).1 !! i
  = Some (run c (check_content self text)
            (check_each self c (take i texts) w).2).1.1.
Proof.
  revert w i. induction texts as [| text0 rest IH]; intros w i Hi; [done |].
  destruct i as [| i].
  - injection Hi as ->. by rewrite check_each_cons.
  - simpl in Hi. rewrite firstn_cons, !check_each_cons. simpl.
    by apply IH.
Qed.

Lemma run_batch_loop (texts : list string) (results : list pyval) (w : W) :
  run c (batch_loop self results texts) w
  = (results ++ (VDict <$> (check_each self c texts w).1),
     (check_each self c texts w).2,
     (λ text, EvApplyGuardrail (guardrail_request self text)) <$> texts).
Proof.
  revert results w. induction texts as [| text rest IH]; intros results w.
  - simpl. by rewrite app_nil_r.
  - change (batch_loop self results (text :: rest))
      with (check_content self text
              ≫= λ result, batch_loop self (results ++ [VDict result]) rest).
    rewrite run_bind, check_each_cons, run_check_content. simpl.
    rewrite IH. by rewrite <- app_assoc.
Qed.

End WithClient.

(** C9: for a body whose [texts] is a list of [N] texts, [batch_check]
    answers 200 with [count = N] and a [results] list of length [N]; the
    texts are checked one after the other in input order, and the [i]-th
    result is what [check_content] returns for the [i]-th text. *)
Theorem batch_check_in_order {W : Type} (self : GuardrailService)
    (c : Bedrock W) (w : W) (data : gmap string (list string))
    (texts : list string) :
  data !! "texts" = Some texts →
  ∃ results,
    run c (batch_check self (Some data)) w
    = ((<["count" := VInt (Z.of_nat (length texts))]> (
        <["results" := VList (VDict <$> results)]> ∅), 200%Z),
       (check_each self c texts w).2,
       (λ text, EvApplyGuardrail (guardrail_request self text)) <$> texts)
    ∧ length results = length texts
    ∧ results = (check_each self c texts w).1
    ∧ ∀ i text, texts !! i = Some text →
        results !! i
        = Some (run c (check_content self text)
                  (check_each self c (take i texts) w).2).1.1.
Proof.
  intros Ht. exists (check_each self c texts w).1.
  split; [| split; [apply check_each_length | split; [reflexivity |]]].
  - unfold batch_check.
    rewrite bool_decide_eq_false_2
      by (intros ->; by rewrite lookup_empty in Ht).
    rewrite Ht, run_bind, run_batch_loop. simpl.
    by rewrite length_fmap, check_each_length, app_nil_r.
  - intros i text Hi. by apply check_each_lookup.
Qed.

Lemma batch_check_in_order_witness :
  (run (Sample.fixed_client (inr Sample.allowed) Sample.no_converse)
     (batch_check Sample.svc (Some {[ "texts" := ["a"; "b"] ]})) tt).1.1.1
  !! "count" = Some (VInt 2).
Proof.
  assert (Ht : ({[ "texts" := ["a"; "b"] ]} : gmap string (list string))
               !! "texts" = Some ["a"; "b"]) by reflexivity.
  destruct (batch_check_in_order Sample.svc
              (Sample.fixed_client (inr Sample.allowed) Sample.no_converse)
              tt _ _ Ht)
    as (results & Hrun & _).
  rewrite Hrun. reflexivity.
Defined.

End BatchClaims.

(** * Further properties *)

(** ** The interpreter: order, count, ignored keys, malformed matches *)

Module InterpreterExtras.
Import Interpreter Props MoreProps.

Ltac step_cases f :=
  intros; unfold f, active;
  destruct (truthy _ && _); simpl; rewrite ?app_nil_r; reflexivity.

Lemma content_filter_app (rs : list string) (e : entry) :
  content_filter rs e = rs ++ content_filter [] e.
Proof. step_cases content_filter. Qed.

Lemma pii_entity_app (rs : list string) (e : entry) :
  pii_entity rs e = rs ++ pii_entity [] e.
Proof. step_cases pii_entity. Qed.

Lemma regex_match_app (rs : list string) (e : entry) :
  regex_match rs e = rs ++ regex_match [] e.
Proof. step_cases regex_match. Qed.

Lemma topic_app (rs : list string) (e : entry) :
  topic rs e = rs ++ topic [] e.
Proof. step_cases topic. Qed.

Lemma content_filter_length (e : entry) :
  length (content_filter [] e) = if active e then 1 else 0.
Proof. step_cases content_filter. Qed.

Lemma pii_entity_length (e : entry) :
  length (pii_entity [] e) = if active e then 1 else 0.
Proof. step_cases pii_entity. Qed.

Lemma regex_match_length (e : entry) :
  length (regex_match [] e) = if active e then 1 else 0.
Proof. step_cases regex_match. Qed.

Lemma topic_length (e : entry) :
  length (topic [] e) = if active e then 1 else 0.
Proof. step_cases topic. Qed.

Section Loops.
Variable step : list string → entry → list string.
Hypothesis step_app : ∀ rs e, step rs e = rs ++ step [] e.

Lemma foldl_step_app (rs : list string) (l : list entry) :
  foldl step rs l = rs ++ foldl step [] l.
Proof.
  revert rs. induction l as [| e l IH]; intros rs; simpl.
  - by rewrite app_nil_r.
  - rewrite IH, (IH (step [] e)), step_app. by rewrite app_assoc.
Qed.

Hypothesis step_length :
  ∀ e, length (step [] e) = if active e then 1 else 0.

Lemma foldl_step_length (rs : list string) (l : list entry) :
  length (foldl step rs l) = length rs + length (List.filter active l).
Proof.
  revert rs. induction l as [| e l IH]; intros rs; simpl.
  - lia.
  - rewrite IH, step_app, length_app, step_length.
    destruct (active e); simpl; lia.
Qed.

End Loops.

Lemma custom_words_reason_prepend (rs : list string) (ws : list entry) :
  custom_words_reason rs ws
  = custom_words_reason [] ws ≫= λ r, inr (rs ++ r).
Proof.
  unfold custom_words_reason. case_bool_decide; simpl.
  - by destruct (str_join ", " _).
  - by rewrite app_nil_r.
Qed.

Lemma managed_lists_reason_app (rs : list string) (ms : list entry) :
  managed_lists_reason rs ms = rs ++ managed_lists_reason [] ms.
Proof.
  unfold managed_lists_reason. case_bool_decide; simpl; by rewrite ?app_nil_r.
Qed.

Lemma word_policy_prepend (rs : list string) (a : assessment) :
  word_policy rs a = word_policy [] a ≫= λ r, inr (rs ++ r).
Proof.
  unfold word_policy. destruct (a !! "wordPolicy") as [wp |]; simpl.
  - rewrite custom_words_reason_prepend.
    destruct (custom_words_reason [] _) as [e | r]; simpl; [reflexivity |].
    rewrite managed_lists_reason_app, (managed_lists_reason_app r).
    by rewrite app_assoc.
  - by rewrite app_nil_r.
Qed.

Lemma content_policy_app (rs : list string) (a : assessment) :
  content_policy rs a = rs ++ content_policy [] a.
Proof.
  unfold content_policy. destruct (a !! "contentPolicy");
    [apply foldl_step_app, content_filter_app | by rewrite app_nil_r].
Qed.

Lemma sensitive_information_policy_app (rs : list string) (a : assessment) :
  sensitive_information_policy rs a
  = rs ++ sensitive_information_policy [] a.
Proof.
  unfold sensitive_information_policy.
  destruct (a !! "sensitiveInformationPolicy"); [| by rewrite app_nil_r].
  rewrite (foldl_step_app _ regex_match_app),
    (foldl_step_app _ pii_entity_app),
    (foldl_step_app _ regex_match_app (foldl _ [] _)).
  by rewrite app_assoc.
Qed.

Lemma topic_policy_app (rs : list string) (a : assessment) :
  topic_policy rs a = rs ++ topic_policy [] a.
Proof.
  unfold topic_policy. destruct (a !! "topicPolicy");
    [apply foldl_step_app, topic_app | by rewrite app_nil_r].
Qed.

Lemma parse_assessment_prepend (rs : list string) (a : assessment) :
  parse_assessment rs a = parse_assessment [] a ≫= λ r, inr (rs ++ r).
Proof.
  unfold parse_assessment.
  rewrite word_policy_prepend,
    (word_policy_prepend (sensitive_information_policy _ a)).
  destruct (word_policy [] a) as [e | r]; simpl; [reflexivity |].
  rewrite topic_policy_app, (topic_policy_app (_ ++ r)).
  rewrite sensitive_information_policy_app, content_policy_app.
  rewrite (sensitive_information_policy_app (content_policy [] a)).
  by rewrite !app_assoc.
Qed.

Lemma parse_loop_prepend (rs : list string) (l : list assessment) :
  parse_loop rs l = parse_loop [] l ≫= λ r, inr (rs ++ r).
Proof.
  revert rs. induction l as [| a l IH]; intros rs; simpl.
  - by rewrite app_nil_r.
  - rewrite parse_assessment_prepend.
    destruct (parse_assessment [] a) as [e | r]; simpl; [reflexivity |].
    rewrite IH, (IH r).
    destruct (parse_loop [] l) as [e | r']; simpl; [reflexivity |].
    by rewrite app_assoc.
Qed.

Lemma parse_loop_app (rs : list string) (l1 l2 : list assessment) :
  parse_loop rs (l1 ++ l2) = parse_loop rs l1 ≫= λ rs', parse_loop rs' l2.
Proof.
  revert rs. induction l1 as [| a l1 IH]; intros rs; simpl; [reflexivity |].
  destruct (parse_assessment rs a) as [e | rs']; simpl; [reflexivity |].
  apply IH.
Qed.

(** X1: the reasons of a concatenated assessment list are the reasons of
    its first part followed by those of its second part; an exception in
    either part is the exception of the whole, the first part's first. *)
Theorem parse_assessments_app (l1 l2 : list assessment) :
  _parse_assessments (l1 ++ l2)
  = match _parse_assessments l1 with
    | inl e => inl e
    | inr r1 =>
        match _parse_assessments l2 with
        | inl e => inl e
        | inr r2 => inr (r1 ++ r2)
        end
    end.
Proof.
  unfold _parse_assessments. rewrite parse_loop_app.
  destruct (parse_loop [] l1) as [e | r1]; simpl; [reflexivity |].
  rewrite parse_loop_prepend. by destruct (parse_loop [] l2).
Qed.

Lemma word_policy_length (rs rs' : list string) (a : assessment) :
  word_policy rs a = inr rs' →
  length rs'
  = length rs
    + (if bool_decide (entries_of a "wordPolicy" "customWords" = []) then 0
       else 1)
    + (if bool_decide (entries_of a "wordPolicy" "managedWordLists" = [])
       then 0 else 1).
Proof.
  unfold word_policy, entries_of.
  destruct (a !! "wordPolicy") as [wp |]; simpl; [| intros [= <-]; lia].
  unfold custom_words_reason, managed_lists_reason.
  destruct (default [] (wp !! "customWords")) as [| w ws] eqn:Hws;
    destruct (default [] (wp !! "managedWordLists")) as [| m ms] eqn:Hms;
    simpl.
  1, 2: intros [= <-]; rewrite ?length_app; simpl; lia.
  all: destruct (str_join ", " _) as [e | word_list]; simpl; [discriminate |];
    intros [= <-]; rewrite ?length_app; simpl; lia.
Qed.

Lemma parse_assessment_length (rs rs' : list string) (a : assessment) :
  parse_assessment rs a = inr rs' →
  length rs' = length rs + reason_count a.
Proof.
  unfold parse_assessment.
  destruct (word_policy _ a) as [e | r] eqn:Hw; simpl; [discriminate |].
  intros [= <-]. apply word_policy_length in Hw.
  unfold reason_count, checked_entries.
  rewrite !List.filter_app, !length_app.
  assert (Hc : ∀ rs0, length (content_policy rs0 a)
    = length rs0
      + length (List.filter active (entries_of a "contentPolicy" "filters"))).
  { intros rs0. unfold content_policy, entries_of.
    destruct (a !! "contentPolicy"); simpl; [| lia].
    apply foldl_step_length;
      [apply content_filter_app | apply content_filter_length]. }
  assert (Hs : ∀ rs0, length (sensitive_information_policy rs0 a)
    = length rs0
      + length (List.filter active
                  (entries_of a "sensitiveInformationPolicy" "piiEntities"))
      + length (List.filter active
                  (entries_of a "sensitiveInformationPolicy" "regexes"))).
  { intros rs0. unfold sensitive_information_policy, entries_of.
    destruct (a !! "sensitiveInformationPolicy"); simpl; [| lia].
    rewrite (foldl_step_length _ regex_match_app regex_match_length).
    by rewrite (foldl_step_length _ pii_entity_app pii_entity_length). }
  assert (Ht : ∀ rs0, length (topic_policy rs0 a)
    = length rs0
      + length (List.filter active (entries_of a "topicPolicy" "topics"))).
  { intros rs0. unfold topic_policy, entries_of.
    destruct (a !! "topicPolicy"); simpl; [| lia].
    apply foldl_step_length; [apply topic_app | apply topic_length]. }
  rewrite Ht, Hw, Hs, Hc. repeat case_bool_decide; lia.
Qed.

Lemma parse_loop_length (rs rs' : list string) (l : list assessment) :
  parse_loop rs l = inr rs' →
  length rs' = length rs + sum_list (reason_count <$> l).
Proof.
  revert rs. induction l as [| a l IH]; intros rs.
  - simpl. intros [= <-]. lia.
  - change (sum_list (reason_count <$> a :: l))
      with (reason_count a + sum_list (reason_count <$> l)).
    cbn [parse_loop].
    destruct (parse_assessment rs a) as [e | r] eqn:Ha; simpl;
      [discriminate |].
    intros Hl. apply IH in Hl. apply parse_assessment_length in Ha. lia.
Qed.

(** X2: when [_parse_assessments] returns, the number of reasons is the
    number of entries with an active action in the filters, PII entities,
    regexes and topics, plus one for each non-empty [customWords] list and
    one for each non-empty [managedWordLists] list, however many words they
    hold. *)
Theorem parse_assessments_count (assessments : list assessment)
    (reasons : list string) :
  _parse_assessments assessments = inr reasons →
  length reasons = sum_list (reason_count <$> assessments).
Proof. intros H. by apply parse_loop_length in H. Qed.

Lemma parse_assessments_count_witness :
  ∃ reasons,
    _parse_assessments MoreSample.mixed = inr reasons ∧ length reasons = 3.
Proof.
  eexists. split; [reflexivity |].
  exact (parse_assessments_count MoreSample.mixed _ eq_refl).
Defined.

Lemma parse_assessment_same_categories (rs : list string)
    (a a' : assessment) :
  same_categories a a' → parse_assessment rs a = parse_assessment rs a'.
Proof.
  unfold same_categories, categories. rewrite !Forall_cons.
  intros (Hc & Hs & Hw & Ht & _).
  unfold parse_assessment, content_policy, sensitive_information_policy,
    word_policy, topic_policy.
  by rewrite Hc, Hs, Hw, Ht.
Qed.

(** X3: [_parse_assessments] reads only the four sub-sections
    [contentPolicy], [sensitiveInformationPolicy], [wordPolicy] and
    [topicPolicy]: two assessment lists that agree on these, item by item,
    give the same result, whatever else the assessments hold. *)
Theorem parse_assessments_other_keys (l l' : list assessment) :
  Forall2 same_categories l l' →
  _parse_assessments l = _parse_assessments l'.
Proof.
  unfold _parse_assessments. generalize (@nil string).
  intros rs H. revert rs.
  induction H as [| a a' l l' Ha _ IH]; intros rs; simpl; [reflexivity |].
  rewrite (parse_assessment_same_categories _ _ _ Ha).
  destruct (parse_assessment rs a'); simpl; [reflexivity | apply IH].
Qed.

Lemma parse_assessments_other_keys_witness :
  _parse_assessments
    [ <["contextualGroundingPolicy" :=
          {[ "filters" := [MoreSample.active_filter] ]}]>
        (Sample.word_assessment Sample.words5 []) ]
  = _parse_assessments [Sample.word_assessment Sample.words5 []].
Proof.
  apply parse_assessments_other_keys.
  repeat constructor.
Defined.

Lemma str_items_first_none (i0 i : nat) (items : list pyleaf) :
  items !! i = Some PNone →
  (∀ j, j < i → items !! j ≠ Some PNone) →
  str_items i0 items
  = inl (TypeError ("sequence item " +:+ pretty (i0 + i)
                    +:+ ": expected str instance, NoneType found")).
Proof.
  revert i0 i. induction items as [| v items IH]; intros i0 i Hi Hlt;
    [done |].
  destruct i as [| i]; simpl in Hi.
  - injection Hi as ->. simpl. by rewrite Nat.add_0_r.
  - destruct v as [| s]; [by specialize (Hlt 0 ltac:(lia)) |].
    simpl. rewrite (IH (S i0) i Hi).
    + simpl. by rewrite Nat.add_succ_r.
    + intros j Hj. apply (Hlt (S j)). lia.
Qed.

(** X4: when one of the first three custom words holds [None] under
    [match], [_parse_assessments] raises the [TypeError] of [str.join],
    naming the position of the first such word; reasons collected before
    are lost with it. *)
Theorem parse_assessments_none_match (a : assessment) (wp : policy)
    (ws : list entry) (i : nat) (w : entry) :
  a !! "wordPolicy" = Some wp →
  wp !! "customWords" = Some ws →
  i < 3 →
  ws !! i = Some w →
  w !! "match" = Some PNone →
  (∀ j w', j < i → ws !! j = Some w' → w' !! "match" ≠ Some PNone) →
  _parse_assessments [a]
  = inl (TypeError ("sequence item " +:+ pretty i
                    +:+ ": expected str instance, NoneType found")).
Proof.
  intros Hwp Hws Hi Hw Hm Hlt.
  unfold _parse_assessments. simpl. unfold parse_assessment, word_policy.
  rewrite Hwp, Hws. simpl. unfold custom_words_reason.
  rewrite bool_decide_eq_true_2 by (intros ->; done).
  unfold str_join.
  rewrite (str_items_first_none 0 i); [reflexivity | |].
  - rewrite list_lookup_fmap, lookup_take_lt by done.
    rewrite Hw. simpl. by rewrite Hm.
  - intros j Hj. rewrite list_lookup_fmap, lookup_take_lt by lia.
    destruct (ws !! j) as [w' |] eqn:Hj'; simpl; [| done].
    specialize (Hlt j w' Hj Hj').
    destruct (w' !! "match") as [[| s] |]; simpl; congruence.
Qed.

Lemma parse_assessments_none_match_witness :
  _parse_assessments [MoreSample.none_match]
  = inl (Exn "TypeError"
           "sequence item 1: expected str instance, NoneType found").
Proof.
  refine (parse_assessments_none_match MoreSample.none_match
            {[ "customWords" :=
                 [Sample.str_entry [("match", "a")]; {[ "match" := PNone ]}] ]}
            _ 1 {[ "match" := PNone ]} eq_refl eq_refl _ eq_refl eq_refl _).
  - lia.
  - intros j w' Hj Hw'. destruct j as [| j]; [| lia].
    injection Hw' as <-. discriminate.
Defined.

(** X23: within one assessment the reasons come in the order of the
    branches: those of the content filters, then of the PII entities and
    the regexes, then of the word policy, then of the topics. *)
Theorem parse_assessment_order (a : assessment) (words : list string) :
  word_policy [] a = inr words →
  _parse_assessments [a]
  = inr (content_policy [] a ++ sensitive_information_policy [] a
         ++ words ++ topic_policy [] a).
Proof.
  intros Hw. unfold _parse_assessments. simpl. unfold parse_assessment.
  rewrite word_policy_prepend, Hw. simpl.
  rewrite topic_policy_app, sensitive_information_policy_app.
  by rewrite <- !app_assoc.
Qed.

Lemma parse_assessment_order_witness :
  _parse_assessments [MoreSample.ordered]
  = inr ["Nội dung HATE: BLOCKED (Độ tin cậy: HIGH)";
         "Từ bị cấm: a, b, c..."; "Chủ đề vi phạm: Salary"].
Proof.
  assert (Hw : word_policy [] MoreSample.ordered
               = inr ["Từ bị cấm: a, b, c..."]) by reflexivity.
  exact (parse_assessment_order MoreSample.ordered _ Hw).
Defined.

End InterpreterExtras.

(** ** The check operation: calls made and shape of the result *)

Module CheckExtras.
Import Interpreter Service Props MoreProps ServiceFacts.

Lemma check_result_dom (text : string) (response : GuardrailResponse)
    (result : gmap string pyval) :
  check_result text response = inr result →
  dom result
  = success_keys
    ∪ (if truthy (masked_text_of response) then {[ "masked_text" ]} else ∅)
  ∧ result !! "action"
    = Some (leaf_val (default (PStr "UNKNOWN") (resp_action response))).
Proof.
  unfold check_result, masked_text_of, success_keys.
  destruct (_parse_assessments _) as [e | raw]; simpl; [discriminate |].
  intros [= <-].
  destruct (truthy _); (split; [| reflexivity]);
    rewrite !dom_insert_L, dom_empty_L; set_solver.
Qed.

Lemma check_failure_dom (text : string) (e : exn) :
  dom (check_failure text e) = failure_keys.
Proof.
  unfold check_failure, failure_keys.
  rewrite !dom_insert_L, dom_empty_L. set_solver.
Qed.

(** Every result carries the text and a boolean [success]. *)
Lemma check_content_echo {W : Type} (self : GuardrailService)
    (c : Bedrock W) (text : string) (w : W) :
  ∃ ok,
    (run c (check_content self text) w).1.1 !! "text" = Some (VStr text)
    ∧ (run c (check_content self text) w).1.1 !! "success"
      = Some (VBool ok).
Proof.
  rewrite run_check_content. simpl.
  destruct (_ ≫= check_result text) as [e | result] eqn:E.
  - by exists false.
  - destruct (apply_guardrail c (guardrail_request self text) w).1
      as [e | response]; [discriminate E |].
    apply check_result_fields in E as (raw & _ & Hs & Ht & _).
    by exists true.
Qed.

(** X5: whatever the client does, [check_content] makes exactly one call,
    [apply_guardrail] with the configured identifier and version, the text
    and source ["INPUT"] (no retry, no [converse]); the result always
    carries the text it was given and boolean [success] and [is_blocked]
    flags, and [is_blocked] is true only in a successful result. *)
Theorem check_content_one_call {W : Type} (self : GuardrailService)
    (c : Bedrock W) (text : string) (w : W) :
  ∃ result (ok blocked : bool),
    run c (check_content self text) w
    = (result,
       (apply_guardrail c (guardrail_request self text) w).2,
       [EvApplyGuardrail
          {| guardrailIdentifier := guardrail_id self;
             guardrailVersion := guardrail_version self;
             content := text; source := "INPUT" |}])
    ∧ result !! "text" = Some (VStr text)
    ∧ result !! "success" = Some (VBool ok)
    ∧ result !! "is_blocked" = Some (VBool blocked)
    ∧ (blocked = true → ok = true).
Proof.
  rewrite run_check_content.
  destruct (_ ≫= check_result text) as [e | result] eqn:E.
  - exists (check_failure text e), false, false. by repeat split.
  - destruct (apply_guardrail c (guardrail_request self text) w).1
      as [e | response]; [discriminate E |].
    apply check_result_fields in E as (raw & _ & Hs & Ht & Hb & _).
    exists result, true, (blocked_action response). by repeat split.
Qed.

(** X6: the keys of a [check_content] result are exactly [success], [text],
    [action], [reasons], [is_blocked] (and possibly [masked_text]) when
    [success] is true, with [action] the provider's action or ["UNKNOWN"]
    when the answer has none; and exactly [success], [error], [error_type],
    [text], [is_blocked] when [success] is false. *)
Theorem check_content_keys {W : Type} (self : GuardrailService)
    (c : Bedrock W) (text : string) (w w1 : W) (result : gmap string pyval)
    (t : list Event) :
  run c (check_content self text) w = (result, w1, t) →
  (result !! "success" = Some (VBool true)
   ∧ (dom result = success_keys
      ∨ dom result = success_keys ∪ {[ "masked_text" ]})
   ∧ ∃ response,
       (apply_guardrail c (guardrail_request self text) w).1 = inr response
       ∧ result !! "action"
         = Some (leaf_val (default (PStr "UNKNOWN") (resp_action response))))
  ∨ (result !! "success" = Some (VBool false)
     ∧ dom result = failure_keys).
Proof.
  rewrite run_check_content. intros [= <- _ _].
  destruct (apply_guardrail c (guardrail_request self text) w).1
    as [e | response]; simpl.
  - right. split; [reflexivity | apply check_failure_dom].
  - destruct (check_result text response) as [e | result] eqn:E.
    + right. split; [reflexivity | apply check_failure_dom].
    + left. pose proof (check_result_dom _ _ _ E) as [Hd Ha].
      apply check_result_fields in E as (raw & _ & Hs & _).
      split; [exact Hs |]. split; [| by exists response].
      rewrite Hd. destruct (truthy _); [by right | left; set_solver].
Qed.

Lemma check_content_keys_witness :
  dom (run (Sample.fixed_client (inr (Sample.masked "m")) Sample.no_converse)
         (check_content Sample.svc "hi") tt).1.1
  = success_keys ∪ {[ "masked_text" ]}.
Proof.
  destruct (check_content_keys Sample.svc
              (Sample.fixed_client (inr (Sample.masked "m"))
                 Sample.no_converse)
              "hi" tt tt _ _ eq_refl) as [(_ & [Hd | Hd] & _) | (Hs & _)].
  - exfalso. assert (Hin : "masked_text" ∈ success_keys).
    { rewrite <- Hd. apply elem_of_dom. by eexists. }
    vm_compute in Hin. set_solver.
  - exact Hd.
  - discriminate Hs.
Defined.

(** X7: when the provider answers but the interpreter raises on the
    assessments, [check_content] returns the failure object, with the
    exception's message and kind and [is_blocked = False], whatever action
    the provider gave. *)
Theorem check_content_interpreter_failure {W : Type}
    (self : GuardrailService) (c : Bedrock W) (text : string) (w w1 : W)
    (response : GuardrailResponse) (e : exn) :
  apply_guardrail c (guardrail_request self text) w = (inr response, w1) →
  _parse_assessments (default [] (resp_assessments response)) = inl e →
  ∃ result,
    run c (check_content self text) w
    = (result, w1, [EvApplyGuardrail (guardrail_request self text)])
    ∧ result !! "success" = Some (VBool false)
    ∧ result !! "error" = Some (VStr (exn_msg e))
    ∧ result !! "error_type" = Some (VStr (exn_type e))
    ∧ result !! "is_blocked" = Some (VBool false)
    ∧ result !! "action" = None
    ∧ result !! "reasons" = None.
Proof.
  intros Hc Hp. exists (check_failure text e).
  rewrite run_check_content, Hc. simpl. unfold check_result. rewrite Hp.
  by repeat split.
Qed.

Lemma check_content_interpreter_failure_witness :
  resp_action MoreSample.blocked_none_match = Some (PStr "BLOCK")
  ∧ (run (Sample.fixed_client (inr MoreSample.blocked_none_match)
            Sample.no_converse)
       (check_content Sample.svc "hi") tt).1.1 !! "is_blocked"
    = Some (VBool false).
Proof.
  split; [reflexivity |].
  destruct (check_content_interpreter_failure Sample.svc
              (Sample.fixed_client (inr MoreSample.blocked_none_match)
                 Sample.no_converse)
              "hi" tt tt _ _ eq_refl eq_refl) as (result & Hrun & _ & _ & _ & Hb & _).
  rewrite Hrun. exact Hb.
Defined.

End CheckExtras.

(** ** The chat operation: calls made and the four payloads *)

Module ChatExtras.
Import Interpreter Service Props MoreProps ServiceFacts.

Section WithClient.
Variable self : GuardrailService.
Context {W : Type} (c : Bedrock W).

Lemma run_chat_with_ai (message : string) (system_prompt : option string)
    (w : W) :
  run c (chat_with_ai self message system_prompt) w
  = let '(input_check, w1, t) := run c (check_content self message) w in
    if py_truthy (default VNone (input_check !! "is_blocked")) then
      (input_blocked input_check, w1, t)
    else
      let '(r, w2) := converse c (converse_request self message system_prompt)
                        w1 in
      (match r ≫= chat_result message input_check with
       | inr result => result
       | inl e => chat_failure e
       end, w2,
       t ++ [EvConverse (converse_request self message system_prompt)]).
Proof.
  unfold chat_with_ai. rewrite run_bind.
  destruct (run c (check_content self message) w) as [[input_check w1] t].
  destruct (py_truthy _); simpl.
  - by rewrite app_nil_r.
  - by destruct (converse c _ w1) as [r w2].
Qed.

(** The chat when the input check has not blocked. *)
Lemma run_chat_not_blocked (message : string) (system_prompt : option string)
    (w w1 : W) (input_check : gmap string pyval) (t : list Event) :
  run c (check_content self message) w = (input_check, w1, t) →
  input_check !! "is_blocked" = Some (VBool false) →
  run c (chat_with_ai self message system_prompt) w
  = (match (converse c (converse_request self message system_prompt) w1).1
           ≫= chat_result message input_check with
     | inr result => result
     | inl e => chat_failure e
     end,
     (converse c (converse_request self message system_prompt) w1).2,
     [EvApplyGuardrail (guardrail_request self message);
      EvConverse (converse_request self message system_prompt)]).
Proof.
  intros Hrun Hb. rewrite run_chat_with_ai, Hrun, Hb. simpl.
  rewrite run_check_content in Hrun. injection Hrun as _ _ <-.
  by destruct (converse c _ w1) as [r w2].
Qed.

End WithClient.

Lemma chat_result_malformed (message : string)
    (input_check : gmap string pyval) (response : ConverseResponse)
    (e : exn) :
  malformed response e →
  stopReason response ≠ Some (PStr "guardrail_intervened") →
  chat_result message input_check response = inl e.
Proof.
  intros Hm Hs. unfold chat_result.
  rewrite bool_decide_eq_false_2
    by (destruct (stopReason response); simpl; congruence).
  revert Hm. unfold malformed, ai_response_of.
  intros [[-> ->] | [(out & -> & -> & ->) | [(out & msg & -> & -> & -> & ->)
    | [(out & msg & -> & -> & -> & ->)
    | [(out & msg & c0 & cs & -> & -> & -> & -> & ->)
    | (out & msg & c0 & cs & -> & -> & -> & -> & ->)]]]]]; reflexivity.
Qed.

(** X8: a failed input check does not stop the chat: when
    [apply_guardrail] raises, [chat_with_ai] still calls [converse] with the
    user's message, right after the failed call. *)
Theorem chat_after_failed_check {W : Type} (self : GuardrailService)
    (c : Bedrock W) (message : string) (system_prompt : option string)
    (w w1 : W) (e : exn) :
  apply_guardrail c (guardrail_request self message) w = (inl e, w1) →
  ∃ result req,
    run c (chat_with_ai self message system_prompt) w
    = (result, (converse c req w1).2,
       [EvApplyGuardrail (guardrail_request self message); EvConverse req])
    ∧ user_text req = message
    ∧ modelId req = model_id self.
Proof.
  intros He. eexists _, (converse_request self message system_prompt).
  split; [| done].
  apply (run_chat_not_blocked self c message system_prompt w w1
           (check_failure message e)
           [EvApplyGuardrail (guardrail_request self message)]);
    [| reflexivity].
  by rewrite run_check_content, He.
Qed.

Lemma chat_after_failed_check_witness :
  is_converse <$>
    (run (Sample.fixed_client (inl MoreSample.client_error)
            (inr (MoreSample.reply "end_turn" "hello")))
       (chat_with_ai Sample.svc "hi" None) tt).2
  = [false; true].
Proof.
  destruct (chat_after_failed_check Sample.svc
              (Sample.fixed_client (inl MoreSample.client_error)
                 (inr (MoreSample.reply "end_turn" "hello")))
              "hi" None tt tt _ eq_refl) as (result & req & Hrun & _).
  rewrite Hrun. reflexivity.
Defined.

(** X9: when the input check does not block, [chat_with_ai] makes exactly
    two calls, [apply_guardrail] and then [converse]; the [converse] request
    carries the configured model, the user's message, [maxTokens = 2000],
    the guardrail identifier and version with the trace enabled, and a
    system prompt exactly when a non-empty one was given. *)
Theorem chat_calls_in_order {W : Type} (self : GuardrailService)
    (c : Bedrock W) (message : string) (system_prompt : option string)
    (w w1 : W) (input_check : gmap string pyval) (t : list Event) :
  run c (check_content self message) w = (input_check, w1, t) →
  input_check !! "is_blocked" = Some (VBool false) →
  ∃ result req,
    run c (chat_with_ai self message system_prompt) w
    = (result, (converse c req w1).2,
       [EvApplyGuardrail (guardrail_request self message); EvConverse req])
    ∧ modelId req = model_id self
    ∧ user_text req = message
    ∧ maxTokens req = 2000%Z
    ∧ guardrailConfig req !! "guardrailIdentifier" = Some (guardrail_id self)
    ∧ guardrailConfig req !! "guardrailVersion"
      = Some (guardrail_version self)
    ∧ guardrailConfig req !! "trace" = Some "enabled"
    ∧ ∀ p, system req = Some p ↔ system_prompt = Some p ∧ p ≠ "".
Proof.
  intros Hrun Hb. eexists _, (converse_request self message system_prompt).
  split; [exact (run_chat_not_blocked _ _ _ _ _ _ _ _ Hrun Hb) |].
  repeat (split; [reflexivity |]).
  intros p. simpl. destruct system_prompt as [q |]; [| intuition congruence].
  case_bool_decide; intuition congruence.
Qed.

Lemma chat_calls_in_order_witness :
  length (run (Sample.fixed_client (inr Sample.allowed)
                 (inr (MoreSample.reply "end_turn" "hello")))
            (chat_with_ai Sample.svc "hi" (Some "")) tt).2 = 2.
Proof.
  destruct (chat_calls_in_order Sample.svc
              (Sample.fixed_client (inr Sample.allowed)
                 (inr (MoreSample.reply "end_turn" "hello")))
              "hi" (Some "") tt tt _ _ eq_refl eq_refl)
    as (result & req & Hrun & _).
  rewrite Hrun. reflexivity.
Defined.

Lemma check_content_is_blocked {W : Type} (self : GuardrailService)
    (c : Bedrock W) (text : string) (w w1 : W) (result : gmap string pyval)
    (t : list Event) :
  run c (check_content self text) w = (result, w1, t) →
  t = [EvApplyGuardrail (guardrail_request self text)]
  ∧ ∃ blocked, result !! "is_blocked" = Some (VBool blocked).
Proof.
  rewrite run_check_content. intros [= <- _ <-]. split; [reflexivity |].
  destruct (_ ≫= check_result text) as [e | result] eqn:E.
  - by exists false.
  - destruct (apply_guardrail c (guardrail_request self text) w).1
      as [e | response]; [discriminate E |].
    apply check_result_fields in E as (raw & _ & _ & _ & Hb & _).
    by eexists.
Qed.

(** X10: when the input check does not block and [converse] answers with
    stop reason ["guardrail_intervened"], [chat_with_ai] returns the
    output-blocked payload: [success = False], the single reason
    ["Output vi phạm guardrail"], the stop reason and the input check, and
    no [ai_response]; the output of the answer is not read. *)
Theorem chat_output_blocked {W : Type} (self : GuardrailService)
    (c : Bedrock W) (message : string) (system_prompt : option string)
    (w w1 w2 : W) (input_check : gmap string pyval) (t : list Event)
    (response : ConverseResponse) :
  run c (check_content self message) w = (input_check, w1, t) →
  input_check !! "is_blocked" = Some (VBool false) →
  converse c (converse_request self message system_prompt) w1
  = (inr response, w2) →
  stopReason response = Some (PStr "guardrail_intervened") →
  ∃ result,
    (run c (chat_with_ai self message system_prompt) w).1 = (result, w2)
    ∧ result !! "success" = Some (VBool false)
    ∧ result !! "message"
      = Some (VStr "Phản hồi của AI bị chặn vì vi phạm chính sách nội dung")
    ∧ result !! "reasons" = Some (VList [VStr "Output vi phạm guardrail"])
    ∧ result !! "input_check" = Some (VDict input_check)
    ∧ result !! "stop_reason" = Some (VStr "guardrail_intervened")
    ∧ result !! "ai_response" = None.
Proof.
  intros Hrun Hb Hc Hs.
  rewrite (run_chat_not_blocked _ _ _ _ _ _ _ _ Hrun Hb), Hc. simpl.
  unfold chat_result. rewrite Hs. simpl.
  eexists. split; [reflexivity |]. by repeat split.
Qed.

Lemma chat_output_blocked_witness :
  (run (Sample.fixed_client (inr Sample.allowed)
          (inr {| stopReason := Some (PStr "guardrail_intervened");
                  output := None |}))
     (chat_with_ai Sample.svc "hi" None) tt).1.1 !! "reasons"
  = Some (VList [VStr "Output vi phạm guardrail"]).
Proof.
  destruct (chat_output_blocked Sample.svc
              (Sample.fixed_client (inr Sample.allowed)
                 (inr {| stopReason := Some (PStr "guardrail_intervened");
                         output := None |}))
              "hi" None tt tt tt _ _ _ eq_refl eq_refl eq_refl eq_refl)
    as (result & Hrun & _ & _ & Hr & _).
  rewrite Hrun. exact Hr.
Defined.

(** X11: when the input check does not block and [converse] raises,
    [chat_with_ai] returns a payload with exactly the keys [success]
    (false), [error] and [error_type], holding the exception's message and
    kind; the input check is not part of it. *)
Theorem chat_converse_raises {W : Type} (self : GuardrailService)
    (c : Bedrock W) (message : string) (system_prompt : option string)
    (w w1 w2 : W) (input_check : gmap string pyval) (t : list Event)
    (e : exn) :
  run c (check_content self message) w = (input_check, w1, t) →
  input_check !! "is_blocked" = Some (VBool false) →
  converse c (converse_request self message system_prompt) w1 = (inl e, w2) →
  ∃ result,
    (run c (chat_with_ai self message system_prompt) w).1 = (result, w2)
    ∧ result !! "success" = Some (VBool false)
    ∧ result !! "error" = Some (VStr (exn_msg e))
    ∧ result !! "error_type" = Some (VStr (exn_type e))
    ∧ dom result = {[ "success"; "error"; "error_type" ]}.
Proof.
  intros Hrun Hb Hc.
  rewrite (run_chat_not_blocked _ _ _ _ _ _ _ _ Hrun Hb), Hc. simpl.
  eexists. split; [reflexivity |]. repeat (split; [reflexivity |]).
  unfold chat_failure. rewrite !dom_insert_L, dom_empty_L. set_solver.
Qed.

Lemma chat_converse_raises_witness :
  (run (Sample.fixed_client (inr Sample.allowed)
          (inl MoreSample.client_error))
     (chat_with_ai Sample.svc "hi" None) tt).1.1 !! "error_type"
  = Some (VStr "ClientError").
Proof.
  destruct (chat_converse_raises Sample.svc
              (Sample.fixed_client (inr Sample.allowed)
                 (inl MoreSample.client_error))
              "hi" None tt tt tt _ _ _ eq_refl eq_refl eq_refl)
    as (result & Hrun & _ & _ & He & _).
  rewrite Hrun. exact He.
Defined.

(** X12: when the input check does not block and the answer of [converse]
    (its stop reason not ["guardrail_intervened"]) lacks [output],
    [message], [content] or [text], has an empty [content], or holds [None]
    as the text, [chat_with_ai] returns the failure payload of the
    [KeyError], [IndexError] or [TypeError] this raises. *)
Theorem chat_malformed_response {W : Type} (self : GuardrailService)
    (c : Bedrock W) (message : string) (system_prompt : option string)
    (w w1 w2 : W) (input_check : gmap string pyval) (t : list Event)
    (response : ConverseResponse) (e : exn) :
  run c (check_content self message) w = (input_check, w1, t) →
  input_check !! "is_blocked" = Some (VBool false) →
  converse c (converse_request self message system_prompt) w1
  = (inr response, w2) →
  stopReason response ≠ Some (PStr "guardrail_intervened") →
  malformed response e →
  ∃ result,
    (run c (chat_with_ai self message system_prompt) w).1 = (result, w2)
    ∧ result !! "success" = Some (VBool false)
    ∧ result !! "error" = Some (VStr (exn_msg e))
    ∧ result !! "error_type" = Some (VStr (exn_type e))
    ∧ result !! "ai_response" = None.
Proof.
  intros Hrun Hb Hc Hs Hm.
  rewrite (run_chat_not_blocked _ _ _ _ _ _ _ _ Hrun Hb), Hc. simpl.
  rewrite (chat_result_malformed _ _ _ _ Hm Hs).
  eexists. split; [reflexivity |]. by repeat split.
Qed.

Lemma chat_malformed_response_witness :
  (run (Sample.fixed_client (inr Sample.allowed) (inr MoreSample.no_output))
     (chat_with_ai Sample.svc "hi" None) tt).1.1 !! "error"
  = Some (VStr "'output'").
Proof.
  assert (Hm : malformed MoreSample.no_output (KeyError "output"))
    by (by left).
  destruct (chat_malformed_response Sample.svc
              (Sample.fixed_client (inr Sample.allowed)
                 (inr MoreSample.no_output))
              "hi" None tt tt tt _ _ _ _ eq_refl eq_refl eq_refl
              ltac:(discriminate) Hm)
    as (result & Hrun & _ & He & _).
  rewrite Hrun. exact He.
Defined.

(** X13: when the input check does not block and [converse] answers with a
    text and a stop reason other than ["guardrail_intervened"],
    [chat_with_ai] returns [success = True] with that text as
    [ai_response], [is_safe = True], the user's message, the input check
    and the stop reason ([None] when the answer has none). *)
Theorem chat_success {W : Type} (self : GuardrailService)
    (c : Bedrock W) (message : string) (system_prompt : option string)
    (w w1 w2 : W) (input_check : gmap string pyval) (t : list Event)
    (response : ConverseResponse) (s : string) :
  run c (check_content self message) w = (input_check, w1, t) →
  input_check !! "is_blocked" = Some (VBool false) →
  converse c (converse_request self message system_prompt) w1
  = (inr response, w2) →
  stopReason response ≠ Some (PStr "guardrail_intervened") →
  ai_response_of response = inr (PStr s) →
  ∃ result,
    (run c (chat_with_ai self message system_prompt) w).1 = (result, w2)
    ∧ result !! "success" = Some (VBool true)
    ∧ result !! "user_message" = Some (VStr message)
    ∧ result !! "ai_response" = Some (VStr s)
    ∧ result !! "is_safe" = Some (VBool true)
    ∧ result !! "input_check" = Some (VDict input_check)
    ∧ result !! "stop_reason"
      = Some (leaf_val (default PNone (stopReason response))).
Proof.
  intros Hrun Hb Hc Hs Ha.
  rewrite (run_chat_not_blocked _ _ _ _ _ _ _ _ Hrun Hb), Hc. simpl.
  unfold chat_result.
  rewrite bool_decide_eq_false_2
    by (destruct (stopReason response); simpl; congruence).
  rewrite Ha. simpl.
  eexists. split; [reflexivity |]. by repeat split.
Qed.

Lemma chat_success_witness :
  (run (Sample.fixed_client (inr Sample.allowed)
          (inr (MoreSample.reply "end_turn" "hello")))
     (chat_with_ai Sample.svc "hi" None) tt).1.1 !! "ai_response"
  = Some (VStr "hello").
Proof.
  destruct (chat_success Sample.svc
              (Sample.fixed_client (inr Sample.allowed)
                 (inr (MoreSample.reply "end_turn" "hello")))
              "hi" None tt tt tt _ _ _ "hello" eq_refl eq_refl eq_refl
              ltac:(discriminate) eq_refl)
    as (result & Hrun & _ & _ & Ha & _).
  rewrite Hrun. exact Ha.
Defined.

(** X14: every payload of [chat_with_ai] has a boolean [success]; it is
    true only when the input check did not report a block, both calls were
    made, and the payload holds a text under [ai_response], [is_safe = True]
    and the user's message. *)
Theorem chat_success_inv {W : Type} (self : GuardrailService)
    (c : Bedrock W) (message : string) (system_prompt : option string)
    (w w2 : W) (result : gmap string pyval) (t : list Event) :
  run c (chat_with_ai self message system_prompt) w = (result, w2, t) →
  (∃ ok, result !! "success" = Some (VBool ok))
  ∧ (result !! "success" = Some (VBool true) →
     ∃ input_check s,
       (run c (check_content self message) w).1.1 = input_check
       ∧ input_check !! "is_blocked" = Some (VBool false)
       ∧ t = [EvApplyGuardrail (guardrail_request self message);
              EvConverse (converse_request self message system_prompt)]
       ∧ result !! "input_check" = Some (VDict input_check)
       ∧ result !! "ai_response" = Some (VStr s)
       ∧ result !! "is_safe" = Some (VBool true)
       ∧ result !! "user_message" = Some (VStr message)).
Proof.
  rewrite run_chat_with_ai.
  destruct (run c (check_content self message) w) as [[input_check w1] t1]
    eqn:Hrun.
  destruct (check_content_is_blocked _ _ _ _ _ _ _ Hrun) as [-> [b Hb]].
  rewrite Hb. destruct b; simpl.
  { intros [= <- _ _]. split; [by eexists | intros [=]]. }
  destruct (converse c _ w1) as [[e | response] w2']; simpl.
  { intros [= <- _ _]. split; [by eexists | intros [=]]. }
  unfold chat_result. case_bool_decide; simpl.
  { intros [= <- _ _]. split; [by eexists | intros [=]]. }
  destruct (ai_response_of response) as [e | [| s]]; simpl.
  1, 2: intros [= <- _ _]; split; [by eexists | intros [=]].
  intros [= <- _ <-]. split; [by eexists |].
  intros _. exists input_check, s. by repeat split.
Qed.

Lemma chat_success_inv_witness :
  ∃ ok,
    (run (Sample.fixed_client (inr Sample.intervened) Sample.no_converse)
       (chat_with_ai Sample.svc "hi" None) tt).1.1 !! "success"
    = Some (VBool ok).
Proof.
  exact (proj1 (chat_success_inv Sample.svc
                  (Sample.fixed_client (inr Sample.intervened)
                     Sample.no_converse)
                  "hi" None tt tt _ _ eq_refl)).
Defined.

End ChatExtras.

(** ** The routes *)

Module RouteExtras.
Import Service Routes Props ServiceFacts.

(** X15: [POST /api/check] whose JSON body is [null], an empty object or an
    object without [text] answers 400 with the error payload and calls
    nothing. *)
Theorem check_route_missing_text {W : Type} (self : GuardrailService)
    (c : Bedrock W) (w : W) (data : option (gmap string string)) :
  match data with Some d => d !! "text" | None => None end = None →
  run c (check self data) w
  = ((<["error" := VStr "Missing 'text' field"]> ∅, 400%Z), w, []).
Proof.
  intros H. unfold check. destruct data as [d |]; [| reflexivity].
  case_bool_decide; [reflexivity |]. by rewrite H.
Qed.

Lemma check_route_missing_text_witness :
  (run (Sample.fixed_client (inr Sample.allowed) Sample.no_converse)
     (check Sample.svc (Some {[ "message" := "hi" ]})) tt).1.1.2 = 400%Z.
Proof.
  assert (H : match Some ({[ "message" := "hi" ]} : gmap string string) with
               | Some d => d !! "text"
               | None => None
               end = None) by reflexivity.
  rewrite (check_route_missing_text Sample.svc _ tt
             (Some {[ "message" := "hi" ]}) H).
  reflexivity.
Defined.

(** X16: [POST /api/check] with a [text] answers 200 with the result of
    [check_content] on it as the payload, after the one call of that check,
    whether the result is a success, a block or a failure object. *)
Theorem check_route_ok {W : Type} (self : GuardrailService)
    (c : Bedrock W) (w : W) (d : gmap string string) (text : string) :
  d !! "text" = Some text →
  ∃ result w1,
    run c (check self (Some d)) w
    = ((result, 200%Z), w1, [EvApplyGuardrail (guardrail_request self text)])
    ∧ (run c (check_content self text) w).1 = (result, w1).
Proof.
  intros H. unfold check.
  rewrite bool_decide_eq_false_2 by (intros ->; by rewrite lookup_empty in H).
  rewrite H, run_bind, run_check_content. simpl. by eexists _, _.
Qed.

Lemma check_route_ok_witness :
  (run (Sample.fixed_client (inl MoreSample.client_error) Sample.no_converse)
     (check Sample.svc (Some {[ "text" := "hi" ]})) tt).1.1.2 = 200%Z.
Proof.
  assert (Ht : ({[ "text" := "hi" ]} : gmap string string) !! "text"
               = Some "hi") by reflexivity.
  destruct (check_route_ok Sample.svc
              (Sample.fixed_client (inl MoreSample.client_error)
                 Sample.no_converse) tt _ _ Ht) as (result & w1 & Hrun & _).
  rewrite Hrun. reflexivity.
Defined.

(** X17: [POST /api/chat] whose JSON body is [null], an empty object or an
    object without [message] answers 400 with the error payload and calls
    nothing. *)
Theorem chat_route_missing_message {W : Type} (self : GuardrailService)
    (c : Bedrock W) (w : W) (data : option (gmap string string)) :
  match data with Some d => d !! "message" | None => None end = None →
  run c (chat self data) w
  = ((<["error" := VStr "Missing 'message' field"]> ∅, 400%Z), w, []).
Proof.
  intros H. unfold chat. destruct data as [d |]; [| reflexivity].
  case_bool_decide; [reflexivity |]. by rewrite H.
Qed.

Lemma chat_route_missing_message_witness :
  (run (Sample.fixed_client (inr Sample.allowed) Sample.no_converse)
     (chat Sample.svc (Some ∅)) tt).2 = [].
Proof.
  assert (H : match Some (∅ : gmap string string) with
               | Some d => d !! "message"
               | None => None
               end = None) by reflexivity.
  rewrite (chat_route_missing_message Sample.svc _ tt (Some ∅) H).
  reflexivity.
Defined.

(** X18: [POST /api/chat] with a [message] answers 200 with the payload of
    [chat_with_ai] on it, called without a system prompt: no [converse]
    request of the route carries one. *)
Theorem chat_route_ok {W : Type} (self : GuardrailService)
    (c : Bedrock W) (w : W) (d : gmap string string) (message : string) :
  d !! "message" = Some message →
  ∃ result w1 t,
    run c (chat self (Some d)) w = ((result, 200%Z), w1, t)
    ∧ run c (chat_with_ai self message None) w = (result, w1, t)
    ∧ ∀ req, EvConverse req ∈ t → system req = None.
Proof.
  intros H. unfold chat.
  rewrite bool_decide_eq_false_2 by (intros ->; by rewrite lookup_empty in H).
  rewrite H, run_bind.
  destruct (run c (chat_with_ai self message None) w) as [[result w1] t]
    eqn:Hrun.
  exists result, w1, t. simpl. rewrite app_nil_r.
  split; [reflexivity |]. split; [reflexivity |].
  rewrite ChatExtras.run_chat_with_ai in Hrun.
  destruct (run c (check_content self message) w) as [[ic w0] t0] eqn:Hc.
  destruct (ChatExtras.check_content_is_blocked _ _ _ _ _ _ _ Hc)
    as [-> _].
  destruct (py_truthy _).
  - injection Hrun as _ _ <-. intros req Hin.
    apply list_elem_of_singleton in Hin. discriminate Hin.
  - destruct (converse c _ w0) as [r w2]. injection Hrun as _ _ <-.
    intros req Hin. simpl in Hin.
    apply elem_of_cons in Hin as [Hin | Hin]; [discriminate Hin |].
    apply list_elem_of_singleton in Hin. by injection Hin as ->.
Qed.

Lemma chat_route_ok_witness :
  (run (Sample.fixed_client (inr Sample.allowed)
          (inr (MoreSample.reply "end_turn" "hello")))
     (chat Sample.svc (Some {[ "message" := "hi" ]})) tt).1.1.2 = 200%Z.
Proof.
  assert (Hm : ({[ "message" := "hi" ]} : gmap string string) !! "message"
               = Some "hi") by reflexivity.
  destruct (chat_route_ok Sample.svc
              (Sample.fixed_client (inr Sample.allowed)
                 (inr (MoreSample.reply "end_turn" "hello")))
              tt _ _ Hm) as (result & w1 & t & Hrun & _).
  rewrite Hrun. reflexivity.
Defined.

(** X19: [POST /api/batch-check] whose JSON body is [null], an empty object
    or an object without [texts] answers 400 with the error payload and
    calls nothing. *)
Theorem batch_check_missing_texts {W : Type} (self : GuardrailService)
    (c : Bedrock W) (w : W) (data : option (gmap string (list string))) :
  match data with Some d => d !! "texts" | None => None end = None →
  run c (batch_check self data) w
  = ((<["error" := VStr "Missing 'texts' array"]> ∅, 400%Z), w, []).
Proof.
  intros H. unfold batch_check. destruct data as [d |]; [| reflexivity].
  case_bool_decide; [reflexivity |]. by rewrite H.
Qed.

Lemma batch_check_missing_texts_witness :
  (run (Sample.fixed_client (inr Sample.allowed) Sample.no_converse)
     (batch_check Sample.svc None) tt).1.1.2 = 400%Z.
Proof.
  rewrite (batch_check_missing_texts Sample.svc _ tt None eq_refl).
  reflexivity.
Defined.

(** X20: in the answer of [POST /api/batch-check] the [i]-th result is a
    dictionary that carries the [i]-th text under [text] and a boolean
    [success]: an item whose check fails yields its failure object and the
    batch goes on. *)
Theorem batch_check_items {W : Type} (self : GuardrailService)
    (c : Bedrock W) (w : W) (data : gmap string (list string))
    (texts : list string) (i : nat) (text : string) :
  data !! "texts" = Some texts →
  texts !! i = Some text →
  ∃ payload results item ok,
    (run c (batch_check self (Some data)) w).1.1 = (payload, 200%Z)
    ∧ payload !! "results" = Some (VList results)
    ∧ length results = length texts
    ∧ results !! i = Some (VDict item)
    ∧ item !! "text" = Some (VStr text)
    ∧ item !! "success" = Some (VBool ok).
Proof.
  intros Ht Hi. unfold batch_check.
  rewrite bool_decide_eq_false_2
    by (intros ->; by rewrite lookup_empty in Ht).
  rewrite Ht, run_bind, BatchClaims.run_batch_loop. simpl.
  pose proof (BatchClaims.check_each_lookup self c texts w i text Hi) as Hl.
  destruct (CheckExtras.check_content_echo self c text
              (check_each self c (take i texts) w).2) as (ok & Htext & Hok).
  eexists _, _, _, ok. split; [reflexivity |].
  split; [reflexivity |].
  split; [by rewrite length_fmap, BatchClaims.check_each_length |].
  split; [by rewrite list_lookup_fmap, Hl |]. done.
Qed.

Lemma batch_check_items_witness :
  ∃ payload results item,
    (run (Sample.fixed_client (inl MoreSample.client_error)
            Sample.no_converse)
       (batch_check Sample.svc (Some {[ "texts" := ["a"; "b"] ]})) tt).1.1
    = (payload, 200%Z)
    ∧ payload !! "results" = Some (VList results)
    ∧ results !! 1 = Some (VDict item)
    ∧ item !! "text" = Some (VStr "b").
Proof.
  assert (Ht : ({[ "texts" := ["a"; "b"] ]} : gmap string (list string))
               !! "texts" = Some ["a"; "b"]) by reflexivity.
  destruct (batch_check_items Sample.svc
              (Sample.fixed_client (inl MoreSample.client_error)
                 Sample.no_converse)
              tt _ ["a"; "b"] 1 "b" Ht eq_refl)
    as (payload & results & item & ok & H1 & H2 & _ & H3 & H4 & _).
  by exists payload, results, item.
Defined.

End RouteExtras.

(** ** Start-up *)

Module StartupExtras.
Import Service Startup.

(** X21: a service that [__init__] has built has a non-empty guardrail
    identifier, the one of [GUARDRAIL_ID]; its client is the one created for
    ["bedrock-runtime"] in its region; a variable that is set is used as it
    is (an empty [AWS_REGION] too), and the defaults ["us-east-1"], ["1"] and
    the Claude 3 Haiku model stand in only for variables that are unset.
    Every request of the service then carries that identifier. *)
Theorem init_ok_inv {C : Type} (boto3_client : string → string → exn + C)
    (env : gmap string string) (svc : GuardrailService) (bedrock : C) :
  __init__ boto3_client env = inr (svc, bedrock) →
  env !! "GUARDRAIL_ID" = Some (guardrail_id svc)
  ∧ guardrail_id svc ≠ ""
  ∧ boto3_client "bedrock-runtime" (region svc) = inr bedrock
  ∧ region svc = default "us-east-1" (env !! "AWS_REGION")
  ∧ guardrail_version svc = default "1" (env !! "GUARDRAIL_VERSION")
  ∧ model_id svc
    = default "anthropic.claude-3-haiku-20240307-v1:0" (env !! "MODEL_ID")
  ∧ ∀ text,
      guardrailIdentifier (guardrail_request svc text) = guardrail_id svc.
Proof.
  unfold __init__.
  destruct (env !! "GUARDRAIL_ID") as [gid |]; [| discriminate].
  case_bool_decide as Hg; [discriminate |].
  destruct (boto3_client _ _) as [e | cl] eqn:Hc; simpl; [discriminate |].
  intros [= <- <-]. by repeat split.
Qed.

Lemma init_ok_inv_witness :
  ∃ svc bedrock,
    __init__ MoreSample.client_ok MoreSample.env_full = inr (svc, bedrock)
    ∧ guardrail_id svc ≠ "" ∧ region svc = "eu-west-1"
    ∧ guardrail_version svc = "1".
Proof.
  eexists _, _. split; [reflexivity |].
  destruct (init_ok_inv MoreSample.client_ok MoreSample.env_full _ _ eq_refl)
    as (_ & Hg & _ & Hr & Hv & _).
  split; [exact Hg |]. split; [exact Hr | exact Hv].
Defined.

(** X22: [__init__] raises in two ways only: the [ValueError] about
    [GUARDRAIL_ID] when that variable is unset or empty, without trying to
    create the client; or, with the variable set, the exception that
    creating the client raised, unchanged. *)
Theorem init_error_inv {C : Type} (boto3_client : string → string → exn + C)
    (env : gmap string string) (e : exn) :
  __init__ boto3_client env = inl e →
  ((env !! "GUARDRAIL_ID" = None ∨ env !! "GUARDRAIL_ID" = Some "")
   ∧ exn_type e = "ValueError"
   ∧ ∀ (C' : Type) (other : string → string → exn + C'),
       __init__ other env = inl e)
  ∨ (∃ gid, env !! "GUARDRAIL_ID" = Some gid ∧ gid ≠ ""
       ∧ boto3_client "bedrock-runtime"
           (default "us-east-1" (env !! "AWS_REGION")) = inl e).
Proof.
  unfold __init__.
  destruct (env !! "GUARDRAIL_ID") as [gid |].
  - case_bool_decide as Hg.
    + intros [= <-]. left. subst gid. split; [by right |]. by split.
    + destruct (boto3_client _ _) as [e' | cl] eqn:Hc; simpl;
        [| discriminate].
      intros [= <-]. right. by exists gid.
  - intros [= <-]. left. split; [by left |]. by split.
Qed.

Lemma init_error_inv_witness :
  ∃ e,
    __init__ MoreSample.client_fails MoreSample.env_full = inl e
    ∧ exn_type e = "NoRegionError".
Proof.
  eexists. split; [reflexivity |].
  destruct (init_error_inv MoreSample.client_fails MoreSample.env_full _
              eq_refl) as [(_ & Ht & _) | (gid & _ & _ & Hc)].
  - discriminate Ht.
  - reflexivity.
Defined.

End StartupExtras.
